(** * Simple-Agent: the task tracker (agent/agency.py) and the model
    client abstraction (llms/llm.py)

    A shallow embedding of the [Agency] class with its four operations,
    the four Tool wrappers generated from it, and of the [LLM] class,
    followed by the properties the specification states about them. *)

From stdpp Require Import gmap strings list pretty.

Local Open Scope string_scope.
Local Open Scope list_scope.

(** ** Python values

    Tool arguments arrive as a JSON object decoded into a Python dict, so
    the values the wrappers see are untyped.  [PyVal] covers [None],
    booleans, integers, strings and lists; floats and nested objects are
    left out (no code path below inspects them beyond truthiness). *)

#[warnings="-register-all"] Inductive PyVal : Type :=
  | PNone
  | PBool (b : bool)
  | PInt (z : Z)
  | PStr (s : string)
  | PList (l : list PyVal).

(** Python truthiness ([not v], [v or w], [if v]). *)
Definition truthy (v : PyVal) : bool :=
  match v with
  | PNone => false
  | PBool b => b
  | PInt z => negb (Z.eqb z 0)
  | PStr s => negb (String.eqb s "")
  | PList [] => false
  | PList (_ :: _) => true
  end.

(** [a or b] *)
Definition py_or (a b : PyVal) : PyVal := if truthy a then a else b.

(** [v is None] *)
Definition is_None (v : PyVal) : bool :=
  match v with PNone => true | _ => false end.

(** [args.get(key)]: the value stored under [key], [None] when absent. *)
Definition py_get (args : gmap string PyVal) (key : string) : PyVal :=
  default PNone (args !! key).

(** [s == v] for a [str] on the left: only an equal [str] compares equal. *)
Definition str_eq (s : string) (v : PyVal) : bool :=
  match v with
  | PStr s' => String.eqb s s'
  | _ => false
  end.

(** ** Formatted text

    An f-string is kept as its template: the literal pieces and the
    interpolated values in order.  [str()] of an interpolated value is not
    expanded. *)

Inductive piece : Type :=
  | Lit (s : string)
  | Fmt (v : PyVal).

Definition text : Type := list piece.

Definition nl : string := String (Ascii.ascii_of_nat 10) EmptyString.

(** ["\n".join(lines)] *)
Fixpoint join_nl (lines : list text) : text :=
  match lines with
  | [] => []
  | [l] => l
  | l :: rest => l ++ Lit nl :: join_nl rest
  end.

(** ** Tasks

    The dataclass [Task].  [id] is always the string built by
    [get_new_task_id]; [requirements] is a list, as annotated and as the
    wrappers check before they delegate; the other fields hold whatever
    value the caller passed ([notes] can be [None], [completed] any
    value, read through its truthiness). *)

Record Task : Type := mkTask {
  id : string;
  description : PyVal;
  requirements : list PyVal;
  completed : PyVal;
  notes : PyVal
}.

Definition set_completed (c : PyVal) (t : Task) : Task :=
  mkTask (id t) (description t) (requirements t) c (notes t).

Definition set_notes (n : PyVal) (t : Task) : Task :=
  mkTask (id t) (description t) (requirements t) (completed t) n.

Definition set_requirements (r : list PyVal) (t : Task) : Task :=
  mkTask (id t) (description t) r (completed t) (notes t).

(** ** Effects

    Modelled from the spec: [PubSub.publish] (utils/pubsub.py) hands the
    payload to the subscribers of the topic and never raises into the
    publisher.  A call to it is recorded as a [Publish] effect carrying
    the topic and the task as it is at publish time; subscribers are
    taken not to write to the task they are handed.  A [console.print]
    that goes through is recorded as a [Print] effect with its text and
    style.  The effects listed are those the agency itself issues. *)

Inductive effect : Type :=
  | Publish (topic : string) (payload : Task)
  | Print (msg : text) (style : string).

Definition topic_of (e : effect) : option string :=
  match e with
  | Publish topic _ => Some topic
  | Print _ _ => None
  end.

(** The topics published, in order. *)
Definition published_topics (es : list effect) : list string :=
  omap topic_of es.

(** How many events were published on [topic]. *)
Definition count_published (topic : string) (es : list effect) : nat :=
  length (filter (λ t, t = topic) (published_topics es)).

(** How a call ends: with a returned value, or with an exception that
    leaves the function ([err] stands for the exception, as [str] shows
    it). *)
Inductive outcome (A : Type) : Type :=
  | Returned (x : A)
  | Raised (err : PyVal).

Arguments Returned {A} x.
Arguments Raised {A} err.

(** A console for the sample runs below.  It rejects, the way rich does, a
    text into which the string "[/x]" has been spliced (a closing tag with
    nothing to close), and also the report of that error, which quotes the
    tag; every other text goes through. *)
Definition stray_tag_error : PyVal :=
  PStr "closing tag '[/x]' doesn't match any open tag".

Definition has_stray_tag (p : piece) : bool :=
  match p with
  | Fmt (PStr s) =>
      String.eqb s "[/x]"
      || String.eqb s "closing tag '[/x]' doesn't match any open tag"
  | _ => false
  end.

Definition sample_markup_error (msg : text) : option PyVal :=
  if existsb has_stray_tag msg then Some stray_tag_error else None.

(** ** The Agency

    [pubsub] and the module-level [console] are the two effect sinks
    above; [llm] is not used by any method of the class. *)

Record Agency : Type := mkAgency {
  tasks : list Task;
  silence_actions : bool
}.

(** [Agency.__init__] *)
Definition Agency_init (silence : bool) : Agency := mkAgency [] silence.

(** A method: reads and updates the agency, emits effects in order, and
    returns or raises.  What was written and emitted before a raise
    stays. *)
Definition Act (A : Type) : Type :=
  Agency → outcome A * Agency * list effect.

Definition act_ret {A} (x : A) : Act A := λ a, (Returned x, a, []).

Definition act_bind {A B} (k : A → Act B) (m : Act A) : Act B :=
  λ a, match m a with
       | (Returned x, a1, es1) =>
           match k x a1 with
           | (o, a2, es2) => (o, a2, es1 ++ es2)
           end
       | (Raised err, a1, es1) => (Raised err, a1, es1)
       end.

Global Instance Act_ret : MRet Act := @act_ret.
Global Instance Act_bind : MBind Act := @act_bind.

(** [try: body except Exception as e: handler(e)].  An exception raised
    by the handler leaves the method. *)
Definition try_except {A} (body : Act A) (handler : PyVal → Act A) : Act A :=
  λ a, match body a with
       | (Returned x, a1, es1) => (Returned x, a1, es1)
       | (Raised err, a1, es1) =>
           match handler err a1 with
           | (o, a2, es2) => (o, a2, es1 ++ es2)
           end
       end.

Definition emit (e : effect) : Act unit := λ a, (Returned tt, a, [e]).
Definition publish (topic : string) (payload : Task) : Act unit :=
  emit (Publish topic payload).
Definition get_tasks : Act (list Task) := λ a, (Returned (tasks a), a, []).
Definition put_tasks (ts : list Task) : Act unit :=
  λ a, (Returned tt, mkAgency ts (silence_actions a), []).
Definition get_silence_actions : Act bool :=
  λ a, (Returned (silence_actions a), a, []).

Definition result_of {A} (r : A * Agency * list effect) : A := r.1.1.
Definition agency_of {A} (r : A * Agency * list effect) : Agency := r.1.2.
Definition effects_of {A} (r : A * Agency * list effect) : list effect := r.2.

(** [f"task_{n}"] *)
Definition task_name (n : nat) : string := "task_" +:+ pretty n.

Definition get_new_task_id : Act string :=
  ts ← get_tasks; mret (task_name (length ts + 1)).

Section Console.
(** [console] is a rich [Console] with markup on: [console.print] parses
    its text as markup before it writes anything, and raises
    [MarkupError] on a text it cannot parse (a closing tag that closes
    nothing, for one).  rich is not part of the repository; which texts
    it rejects, and with which exception, is this parameter. *)
Variable markup_error : text → option PyVal.

(** [console.print(msg, style=style)] *)
Definition console_print (msg : text) (style : string) : Act unit :=
  λ a, match markup_error msg with
       | Some err => (Raised err, a, [])
       | None => (Returned tt, a, [Print msg style])
       end.

(** [if not self.silence_actions: console.print(msg, style=...)] *)
Definition notice (msg : text) (style : string) : Act unit :=
  get_silence_actions ≫= λ silent : bool,
    if silent then mret tt else console_print msg style.

Definition get_incomplete_tasks (a : Agency) : list Task :=
  filter (λ t, truthy (completed t) = false) (tasks a).

Definition get_completed_tasks (a : Agency) : list Task :=
  filter (λ t, truthy (completed t) = true) (tasks a).

Definition has_incomplete_tasks (a : Agency) : bool :=
  existsb (λ t, negb (truthy (completed t))) (tasks a).

Definition describe_task (task : Task) : text :=
  [Lit "---";
   Lit "Task ID: "; Fmt (PStr (id task)); Lit nl;
   Lit "Description: "; Fmt (description task); Lit nl;
   Lit "Requirements: "]
  ++ join_nl (map (λ req, [Lit "- "; Fmt req]) (requirements task))
  ++ [Lit nl;
      Lit "Notes:"; Lit nl; Fmt (notes task); Lit nl;
      Lit "Completed: "; Fmt (completed task); Lit nl; Lit nl;
      Lit "---"].

Fixpoint get_tasks_described (ts : list Task) : text :=
  match ts with
  | [] => []
  | task :: rest => describe_task task ++ get_tasks_described rest
  end.

Definition get_incomplete_tasks_described (a : Agency) : text :=
  get_tasks_described (get_incomplete_tasks a).

(** [create_task].  In the [try] block only the notice can raise; the
    task is appended by then and not yet published. *)
Definition create_task (description : PyVal) (requirements : list PyVal)
    (completed : PyVal) : Act bool :=
  try_except
    (id ← get_new_task_id;
     let task := mkTask id description requirements completed (PStr "") in
     ts ← get_tasks;
     put_tasks (ts ++ [task]);;
     notice [Lit "Created task: [italic]"; Fmt description; Lit "[/italic]"]
            "green";;
     publish "task_created" task;;
     mret true)
    (λ e, console_print [Lit "Error creating task: "; Fmt e] "bold red";;
          mret false).

(** The loop shared by the three mutators:
    [for task in self.tasks: if task.id == task_id: <mutate task>; ...;
    return True].  It stops at the first task whose identifier matches and
    yields that task after the mutation together with the updated list;
    [None] when the loop runs to its end. *)
Fixpoint mutate_first (task_id : PyVal) (mutate : Task → Task)
    (ts : list Task) : option (Task * list Task) :=
  match ts with
  | [] => None
  | task :: rest =>
      if str_eq (id task) task_id
      then Some (mutate task, mutate task :: rest)
      else match mutate_first task_id mutate rest with
           | Some (task', rest') => Some (task', task :: rest')
           | None => None
           end
  end.

(** The two lines after the loop: the notice is printed whatever
    [silence_actions] says. *)
Definition not_found (task_id : PyVal) : Act bool :=
  console_print [Lit "Task "; Fmt task_id; Lit " not found."] "bold red";;
  mret false.

Definition complete_task (task_id : PyVal) : Act bool :=
  try_except
    (ts ← get_tasks;
     match mutate_first task_id (set_completed (PBool true)) ts with
     | Some (task, ts') =>
         put_tasks ts';;
         publish "task_completed" task;;
         notice [Lit "Completed task: [italic]"; Fmt (description task);
                 Lit "[/italic]"] "green";;
         mret true
     | None => not_found task_id
     end)
    (λ e, console_print [Lit "Error completing task: "; Fmt e] "bold red";;
          mret false).

Definition modify_task_notes (task_id : PyVal) (notes : PyVal) : Act bool :=
  try_except
    (ts ← get_tasks;
     match mutate_first task_id (set_notes notes) ts with
     | Some (task, ts') =>
         put_tasks ts';;
         publish "task_notes_modified" task;;
         notice [Lit "Modified notes for task: [italic]";
                 Fmt (description task); Lit "[/italic]"] "green";;
         mret true
     | None => not_found task_id
     end)
    (λ e, console_print [Lit "Error modifying notes: "; Fmt e] "bold red";;
          mret false).

Definition modify_task_requirements (task_id : PyVal)
    (requirements : list PyVal) : Act bool :=
  try_except
    (ts ← get_tasks;
     match mutate_first task_id (set_requirements requirements) ts with
     | Some (task, ts') =>
         put_tasks ts';;
         publish "task_requirements_modified" task;;
         notice [Lit "Modified requirements for task: [italic]";
                 Fmt (description task); Lit "[/italic]"] "green";;
         mret true
     | None => not_found task_id
     end)
    (λ e, console_print [Lit "Error modifying requirements: "; Fmt e]
                        "bold red";;
          mret false).

(** ** The Tool wrappers

    Modelled from the spec: the [Tool] class (tools/index.py) is a record
    of a name, a description, an input schema and an executor taking the
    argument mapping.  Of the schema the property names with their JSON
    types and the [required] list are kept. *)

Record Schema : Type := mkSchema {
  properties : list (string * string);
  required : list string
}.

Record Tool : Type := mkTool {
  tool_name : string;
  tool_description : string;
  function : gmap string PyVal → Act text;
  parameters : Schema
}.

(** [run] of [create_task_tool]; the [pubsub] argument is unused.  None
    of the four [run] functions catches: an exception that leaves the
    operation leaves the wrapper. *)
Definition create_task_run (args : gmap string PyVal) : Act text :=
  let description := py_get args "description" in
  let requirements := py_get args "requirements" in
  let completed := py_or (py_get args "completed") (PBool false) in
  id ← get_new_task_id;
  if negb (truthy description) then
    mret [Lit "Error creating task: No description provided."]
  else if negb (truthy requirements) then
    mret [Lit "Error creating task: No requirements provided."]
  else match requirements with
       | PList reqs =>
           worked ← create_task description reqs completed;
           if negb worked then mret [Lit "Error creating task."]
           else mret [Lit "Task created with id "; Fmt (PStr id); Lit "."]
       | _ => mret [Lit "Error creating task: Requirements must be a list."]
       end.

Definition create_task_tool : Tool :=
  mkTool "create_task" "Use this tool to create a new task."
    create_task_run
    (mkSchema [("description", "string"); ("requirements", "array");
               ("completed", "boolean")]
              ["description"; "requirements"]).

(** [run] of [complete_task_tool] *)
Definition complete_task_run (args : gmap string PyVal) : Act text :=
  let task_id := py_get args "task_id" in
  if is_None task_id then
    mret [Lit "Task with id "; Fmt task_id; Lit " not found."]
  else
    worked ← complete_task task_id;
    if negb worked then
      mret [Lit "Error completing task with id "; Fmt task_id; Lit "."]
    else
      mret [Lit "Task with id "; Fmt task_id; Lit " marked as complete."].

Definition complete_task_tool : Tool :=
  mkTool "complete_task" "Use this to mark a task complete."
    complete_task_run
    (mkSchema [("task_id", "string")] ["task_id"]).

(** [run] of [modify_task_notes_tool] *)
Definition modify_task_notes_run (args : gmap string PyVal) : Act text :=
  let task_id := py_get args "task_id" in
  let notes := py_get args "notes" in
  if is_None task_id then
    mret [Lit "Task with id "; Fmt task_id; Lit " not found."]
  else
    worked ← modify_task_notes task_id notes;
    if negb worked then
      mret [Lit "Error modifying notes for task with id "; Fmt task_id;
            Lit "."]
    else
      mret [Lit "Notes for task with id "; Fmt task_id; Lit " modified."].

Definition modify_task_notes_tool : Tool :=
  mkTool "modify_task_notes" "Use this to modify the notes for a task."
    modify_task_notes_run
    (mkSchema [("task_id", "string"); ("notes", "string")]
              ["task_id"; "notes"]).

(** [run] of [modify_task_requirements_tool] *)
Definition modify_task_requirements_run (args : gmap string PyVal)
    : Act text :=
  let task_id := py_get args "task_id" in
  let requirements := py_get args "requirements" in
  if is_None task_id then
    mret [Lit "Task with id "; Fmt task_id; Lit " not found."]
  else if negb (truthy requirements) then
    mret [Lit "Error modifying task: No requirements provided."]
  else match requirements with
       | PList reqs =>
           worked ← modify_task_requirements task_id reqs;
           if negb worked then
             mret [Lit "Error modifying requirements for task with id ";
                   Fmt task_id; Lit "."]
           else
             mret [Lit "Requirements for task with id "; Fmt task_id;
                   Lit " modified."]
       | _ => mret [Lit "Error modifying task: Requirements must be a list."]
       end.

Definition modify_task_requirements_tool : Tool :=
  mkTool "modify_task_requirements"
    "Use this to modify the requirements for a task."
    modify_task_requirements_run
    (mkSchema [("task_id", "string"); ("requirements", "array")]
              ["task_id"; "requirements"]).

(** The four generated tools. *)
Definition agency_tools : list Tool :=
  [create_task_tool; complete_task_tool; modify_task_notes_tool;
   modify_task_requirements_tool].

(** ** The model client (llms/llm.py)

    Modelled from the spec: a [ToolCall] (tools/index.py) is an
    identifier, a tool name and an argument mapping. *)

Record ToolCall : Type := mkToolCall {
  call_id : string;
  call_name : string;
  arguments : gmap string PyVal
}.

Record Message : Type := mkMessage {
  message_id : option string;
  content : option string;
  role : string;
  tool_calls : option (list ToolCall);
  tool_call_id : option string
}.

(** The attributes of an [LLM] instance.  [system_prompt] is only
    annotated on the class: the attribute does not exist until [startup]
    assigns it, which is [None] here. *)
Record LLM : Type := mkLLM {
  name : string;
  model_name : string;
  system_prompt : option string
}.

(** The calls a client can make on an [LLM] after its construction. *)
Inductive llm_call : Type :=
  | Startup (system_prompt : string)
  | GetResponse (messages : list Message) (tools : list Tool)
  | GetTextResponse (message : string) (system_prompt : string)
  | AppendToSystemPrompt (message : string).

(** What a call returns. *)
Inductive llm_result : Type :=
  | RNone
  | RMessage (m : Message)
  | RText (s : string).

Section Client.
(** The two callables handed to [LLM.__init__] act on a backend of their
    own (a network session, say); they receive the prompt as an
    argument and hold no reference to the [LLM] object. *)
Context {Backend : Type}.
Variable get_model_response :
  list Message → list Tool → string → Backend → Message * Backend.
Variable on_startup : option (Backend → Backend).

Definition startup (prompt : string) (l : LLM) (b : Backend)
    : LLM * Backend :=
  (mkLLM (name l) (model_name l) (Some prompt),
   match on_startup with
   | Some f => f b
   | None => b
   end).

(** Reading [self.system_prompt] before [startup] raises
    [AttributeError]: [None]. *)
Definition get_response (messages : list Message) (tools : list Tool)
    (l : LLM) (b : Backend) : option (Message * Backend) :=
  prompt ← system_prompt l;
  Some (get_model_response messages tools prompt b).

Definition get_text_response (message : string) (prompt : string)
    (b : Backend) : string * Backend :=
  let r :=
    get_model_response [mkMessage None (Some message) "user" None None]
                       [] prompt b in
  (match content r.1 with
   | None => ""
   | Some c => if String.eqb c "" then "" else c
   end, r.2).

(** [self.system_prompt += f"\n{message}"; return self.system_prompt] *)
Definition append_to_system_prompt (message : string) (l : LLM)
    : option (LLM * string) :=
  prompt ← system_prompt l;
  let prompt' := prompt +:+ nl +:+ message in
  Some (mkLLM (name l) (model_name l) (Some prompt'), prompt').

(** One call on the client: the new attributes, the new backend and the
    value returned; [None] when the call raises. *)
Definition llm_step (c : llm_call) (st : LLM * Backend)
    : option (LLM * Backend * llm_result) :=
  match c with
  | Startup prompt =>
      let r := startup prompt st.1 st.2 in Some (r.1, r.2, RNone)
  | GetResponse messages tools =>
      r ← get_response messages tools st.1 st.2;
      Some (st.1, r.2, RMessage r.1)
  | GetTextResponse message prompt =>
      let r := get_text_response message prompt st.2 in
      Some (st.1, r.2, RText r.1)
  | AppendToSystemPrompt message =>
      r ← append_to_system_prompt message st.1;
      Some (r.1, st.2, RText r.2)
  end.

(** A series of calls, in order; it stops at the first that raises. *)
Fixpoint llm_run (cs : list llm_call) (st : LLM * Backend)
    : option (LLM * Backend) :=
  match cs with
  | [] => Some st
  | c :: cs' => r ← llm_step c st; llm_run cs' (r.1.1, r.1.2)
  end.
End Client.

Definition is_Startup (c : llm_call) : bool :=
  match c with Startup _ => true | _ => false end.

(** The text the [AppendToSystemPrompt] calls of [cs] add, in order. *)
Fixpoint appended (cs : list llm_call) : string :=
  match cs with
  | [] => ""
  | AppendToSystemPrompt m :: cs' => nl +:+ m +:+ appended cs'
  | _ :: cs' => appended cs'
  end.

(** ** Specification vocabulary *)

(** Some task of [ts] carries the identifier [task_id]. *)
Definition known (task_id : PyVal) (ts : list Task) : Prop :=
  ∃ t, t ∈ ts ∧ PStr (id t) = task_id.

(** Reading a task back by identifier: the first one that carries it. *)
Definition find_task (task_id : PyVal) (ts : list Task) : option Task :=
  List.find (λ t, str_eq (id t) task_id) ts.

(** What an [except] branch does with the exception [e]: it prints the
    report and returns false, unless the console rejects the report too. *)
Definition report (label : string) (e : PyVal)
    : outcome bool * list effect :=
  let msg := [Lit label; Fmt e] in
  match markup_error msg with
  | Some e' => (Raised e', [])
  | None => (Returned false, [Print msg "bold red"])
  end.

(** What a call prints and how it ends once its [try] block has reached
    [console.print msg]; [ok] is what the block returns after the print. *)
Definition after_print (msg : text) (style : string) (ok : bool)
    (label : string) : outcome bool * list effect :=
  match markup_error msg with
  | Some e => report label e
  | None => (Returned ok, [Print msg style])
  end.

(** The three mutators as one scheme: the field update, the topic, the
    opening of the console notice and the opening of the error report. *)
Definition mutator (mutate : Task → Task) (topic label error_label : string)
    (task_id : PyVal) : Act bool :=
  λ a, match mutate_first task_id mutate (tasks a) with
       | Some (task, ts') =>
           let end_ :=
             if silence_actions a then (Returned true, [])
             else after_print [Lit label; Fmt (description task);
                               Lit "[/italic]"] "green" true error_label in
           (end_.1, mkAgency ts' (silence_actions a),
            Publish topic task :: end_.2)
       | None =>
           let end_ :=
             after_print [Lit "Task "; Fmt task_id; Lit " not found."]
                         "bold red" false error_label in
           (end_.1, a, end_.2)
       end.

(** The operations of the tracker as data, to speak about any one of them
    and about series of them. *)
Inductive agency_op : Type :=
  | CreateTask (description : PyVal) (requirements : list PyVal)
               (completed : PyVal)
  | CompleteTask (task_id : PyVal)
  | ModifyTaskNotes (task_id : PyVal) (notes : PyVal)
  | ModifyTaskRequirements (task_id : PyVal) (requirements : list PyVal).

Definition run_op (op : agency_op) : Act bool :=
  match op with
  | CreateTask d r c => create_task d r c
  | CompleteTask i => complete_task i
  | ModifyTaskNotes i n => modify_task_notes i n
  | ModifyTaskRequirements i r => modify_task_requirements i r
  end.

(** A series of calls, in order: how each ended, the final agency and all
    effects.  A call that raises leaves its writes in place; the series
    is the calls the caller made, whatever it did with the exceptions. *)
Fixpoint run_ops (ops : list agency_op) (a : Agency)
    : list (outcome bool) * Agency * list effect :=
  match ops with
  | [] => ([], a, [])
  | op :: ops' =>
      let r := run_op op a in
      let rs := run_ops ops' (agency_of r) in
      (result_of r :: result_of rs, agency_of rs,
       effects_of r ++ effects_of rs)
  end.

(** The specification of the selection, in its own words: going through
    the tasks in creation order, a task whose completion flag is false is
    kept and one whose flag is true is left out. *)
Inductive keeps_incomplete : list Task → list Task → Prop :=
  | keeps_nil : keeps_incomplete [] []
  | keeps_keep t ts us :
      truthy (completed t) = false →
      keeps_incomplete ts us → keeps_incomplete (t :: ts) (t :: us)
  | keeps_drop t ts us :
      truthy (completed t) = true →
      keeps_incomplete ts us → keeps_incomplete (t :: ts) us.

(** The arguments of one [create_task] call. *)
Definition create_args : Type := PyVal * list PyVal * PyVal.

Definition create_op (x : create_args) : agency_op :=
  CreateTask x.1.1 x.1.2 x.2.

(** The identifiers carried by the [task_created] events, in order. *)
Definition created_ids (es : list effect) : list string :=
  omap (λ e, match e with
             | Publish topic task =>
                 if String.eqb topic "task_created" then Some (id task)
                 else None
             | Print _ _ => None
             end) es.

(** The tasks that a series of [create_task] calls appends to a list that
    holds [n] tasks already. *)
Fixpoint new_tasks (n : nat) (inputs : list create_args) : list Task :=
  match inputs with
  | [] => []
  | x :: inputs' =>
      mkTask (task_name (n + 1)) x.1.1 x.1.2 x.2 (PStr "")
      :: new_tasks (S n) inputs'
  end.

(** ** More vocabulary for series of operations *)

Definition is_create (op : agency_op) : bool :=
  match op with CreateTask _ _ _ => true | _ => false end.

(** The topic an operation publishes on when it succeeds. *)
Definition topic_for (op : agency_op) : string :=
  match op with
  | CreateTask _ _ _ => "task_created"
  | CompleteTask _ => "task_completed"
  | ModifyTaskNotes _ _ => "task_notes_modified"
  | ModifyTaskRequirements _ _ => "task_requirements_modified"
  end.

Definition is_Print (e : effect) : bool :=
  match e with Print _ _ => true | Publish _ _ => false end.

(** The task list one of the three loops leaves behind. *)
Definition tasks_after (task_id : PyVal) (mutate : Task → Task)
    (ts : list Task) : list Task :=
  match mutate_first task_id mutate ts with
  | Some (_, ts') => ts'
  | None => ts
  end.

(** ** The run_js tool (tools/run_js.py)

    [run] drives a Chrome session through selenium.  The session is
    outside the program: what its calls do is given by three parameters,
    and the calls made are recorded in order.  [driver.quit()] in the
    [finally] block is taken not to raise. *)

Inductive driver_call : Type :=
  | Launch
  | Get (url : PyVal)
  | ExecuteScript (script : PyVal)
  | Quit.

Section RunJs.
(** [webdriver.Chrome(...)]: the exception it raises, if any. *)
Variable launch_error : option PyVal.
(** [driver.get(url)]: the exception it raises, if any. *)
Variable get_error : PyVal → option PyVal.
(** [driver.execute_script(script)] on the page at [url]: the result, or
    the exception raised. *)
Variable execute_script : PyVal → PyVal → PyVal + PyVal.

(** [run(ps, args)]; the [ps] argument is unused.  [not args] on a dict is
    emptiness, ["url" not in args] is absence of the key. *)
Definition run_js_run (args : gmap string PyVal)
    : outcome text * list driver_call :=
  if Nat.eqb (size args) 0 || bool_decide (args !! "url" = None) then
    (Returned [Lit "Error running web_request: No URL provided."], [])
  else if bool_decide (args !! "script" = None) then
    (Returned [Lit "Error running run_js: No script provided."], [])
  else
    let url := py_get args "url" in
    let script := py_get args "script" in
    match launch_error with
    | Some err => (Raised err, [Launch])
    | None =>
        match get_error url with
        | Some err =>
            (Returned [Lit "Error occurred: "; Fmt err],
             [Launch; Get url; Quit])
        | None =>
            match execute_script url script with
            | inl result =>
                (Returned [Lit "JavaScript result:"; Lit nl; Lit "```";
                           Lit nl; Fmt result; Lit nl; Lit "```"],
                 [Launch; Get url; ExecuteScript script; Quit])
            | inr err =>
                (Returned [Lit "Error occurred: "; Fmt err],
                 [Launch; Get url; ExecuteScript script; Quit])
            end
        end
    end.
End RunJs.

(** What the outcome of a mutator depends on: the identifier and the
    description of each task. *)
Definition key (t : Task) : string * PyVal := (id t, description t).

Fixpoint first_description (task_id : PyVal) (ks : list (string * PyVal))
    : option PyVal :=
  match ks with
  | [] => None
  | (i, d) :: ks' =>
      if str_eq i task_id then Some d else first_description task_id ks'
  end.

(** How a mutator ends and what it prints, from those alone. *)
Definition mutator_end (label error_label : string) (task_id : PyVal)
    (silent : bool) (ks : list (string * PyVal))
    : outcome bool * list effect :=
  match first_description task_id ks with
  | Some d =>
      if silent then (Returned true, [])
      else after_print [Lit label; Fmt d; Lit "[/italic]"] "green" true
                       error_label
  | None =>
      after_print [Lit "Task "; Fmt task_id; Lit " not found."] "bold red"
                  false error_label
  end.

(** A call that left the agency as it was and published nothing. *)
Definition untouched (a : Agency) (r : outcome bool * Agency * list effect)
    : Prop :=
  agency_of r = a ∧ published_topics (effects_of r) = [] ∧
  "error" ∉ published_topics (effects_of r).

(** The call returned [True]. *)
Definition returned_true (o : outcome bool) : bool :=
  match o with Returned true => true | _ => false end.

(** The identifier a mutator is called with. *)
Definition op_task_id (op : agency_op) : option PyVal :=
  match op with
  | CreateTask _ _ _ => None
  | CompleteTask i | ModifyTaskNotes i _ | ModifyTaskRequirements i _ =>
      Some i
  end.

(** The success notice of each operation. *)
Definition created_notice (d : PyVal) : text :=
  [Lit "Created task: [italic]"; Fmt d; Lit "[/italic]"].
Definition completed_notice (d : PyVal) : text :=
  [Lit "Completed task: [italic]"; Fmt d; Lit "[/italic]"].
Definition notes_notice (d : PyVal) : text :=
  [Lit "Modified notes for task: [italic]"; Fmt d; Lit "[/italic]"].
Definition requirements_notice (d : PyVal) : text :=
  [Lit "Modified requirements for task: [italic]"; Fmt d; Lit "[/italic]"].
Definition not_found_notice (task_id : PyVal) : text :=
  [Lit "Task "; Fmt task_id; Lit " not found."].

(** ** Proof tactics *)

(** Unfolds the plumbing of [Act] down to tuples. *)
Ltac act_simpl :=
  unfold notice, not_found, get_new_task_id, publish, console_print, emit,
         get_tasks, put_tasks, get_silence_actions, try_except,
         mbind, mret, Act_bind, Act_ret, act_bind, act_ret in *;
  cbn in *.

(** Projects the components of a result tuple. *)
Ltac res_simpl :=
  unfold result_of, agency_of, effects_of in *;
  cbn [fst snd tasks silence_actions] in *.

(** Splits on what the console does with each text it is asked about. *)
Ltac console_cases :=
  repeat match goal with
         | |- context [markup_error ?m] =>
             destruct (markup_error m) eqn:?; cbn
         end.

(** ** Basic facts *)

Lemma str_eq_true s v : str_eq s v = true ↔ v = PStr s.
Proof.
  destruct v; simpl; try (split; [discriminate | congruence]).
  rewrite String.eqb_eq. split; congruence.
Qed.

Lemma str_eq_false s v : str_eq s v = false ↔ PStr s ≠ v.
Proof.
  rewrite <- not_true_iff_false, str_eq_true. split; intros H E; apply H; done.
Qed.

Lemma complete_task_mutator task_id a :
  complete_task task_id a
  = mutator (set_completed (PBool true)) "task_completed"
            "Completed task: [italic]" "Error completing task: " task_id a.
Proof.
  unfold complete_task, mutator, after_print, report. act_simpl.
  destruct (mutate_first _ _ _) as [[t ts']|]; cbn.
  - destruct (silence_actions a); cbn; [done|]. by console_cases.
  - by console_cases.
Qed.

Lemma modify_task_notes_mutator task_id n a :
  modify_task_notes task_id n a
  = mutator (set_notes n) "task_notes_modified"
            "Modified notes for task: [italic]" "Error modifying notes: "
            task_id a.
Proof.
  unfold modify_task_notes, mutator, after_print, report. act_simpl.
  destruct (mutate_first _ _ _) as [[t ts']|]; cbn.
  - destruct (silence_actions a); cbn; [done|]. by console_cases.
  - by console_cases.
Qed.

Lemma modify_task_requirements_mutator task_id r a :
  modify_task_requirements task_id r a
  = mutator (set_requirements r) "task_requirements_modified"
            "Modified requirements for task: [italic]"
            "Error modifying requirements: " task_id a.
Proof.
  unfold modify_task_requirements, mutator, after_print, report. act_simpl.
  destruct (mutate_first _ _ _) as [[t ts']|]; cbn.
  - destruct (silence_actions a); cbn; [done|]. by console_cases.
  - by console_cases.
Qed.

Lemma create_task_eq d r c a :
  create_task d r c a
  = let task := mkTask (task_name (length (tasks a) + 1)) d r c (PStr "") in
    let end_ :=
      if silence_actions a
      then (Returned true, [Publish "task_created" task])
      else match markup_error (created_notice d) with
           | None =>
               (Returned true,
                [Print (created_notice d) "green";
                 Publish "task_created" task])
           | Some e => report "Error creating task: " e
           end in
    (end_.1, mkAgency (tasks a ++ [task]) (silence_actions a), end_.2).
Proof.
  unfold create_task, created_notice, report. act_simpl.
  destruct (silence_actions a); cbn; [done|]. by console_cases.
Qed.

Section MutateFirst.
Variable task_id : PyVal.
Variable mutate : Task → Task.

Lemma mutate_first_None ts :
  mutate_first task_id mutate ts = None ↔ ¬ known task_id ts.
Proof.
  unfold known. induction ts as [|t ts IH]; simpl.
  - split; [|done]. intros _ (u & Hu & _). by apply elem_of_nil in Hu.
  - destruct (str_eq (id t) task_id) eqn:E.
    + split; [done|]. intros H. exfalso. apply H. exists t.
      split; [left|]. symmetry. by apply str_eq_true.
    + destruct (mutate_first task_id mutate ts) as [[u us]|].
      * split; [done|]. intros H. exfalso.
        assert (¬ ∃ t0, t0 ∈ ts ∧ PStr (id t0) = task_id) as H'.
        { intros (v & Hv & Hid). apply H. exists v. split; [by right|done]. }
        by apply IH in H'.
      * split; [|done]. intros _ (v & Hv & Hid).
        apply elem_of_cons in Hv as [->|Hv].
        -- apply str_eq_false in E. done.
        -- destruct IH as [IH _]. apply IH; [done|]. by exists v.
Qed.

(** When the loop finds a task it is the first with that identifier, at
    some position [i]; that position alone is updated. *)
Lemma mutate_first_Some ts t' ts' :
  mutate_first task_id mutate ts = Some (t', ts') →
  ∃ i t, ts !! i = Some t ∧ PStr (id t) = task_id ∧
         (∀ j u, j < i → ts !! j = Some u → PStr (id u) ≠ task_id) ∧
         t' = mutate t ∧ ts' = <[i := mutate t]> ts.
Proof.
  revert t' ts'. induction ts as [|t ts IH]; simpl; [done|].
  intros t' ts'. destruct (str_eq (id t) task_id) eqn:E.
  - intros [= <- <-]. exists 0, t. apply str_eq_true in E.
    repeat split; try done. intros j u Hj. lia.
  - destruct (mutate_first task_id mutate ts) as [[u us]|]; [|done].
    intros [= <- <-]. destruct (IH _ _ eq_refl) as (i & t0 & Hi & Hid & Hfst & -> & ->).
    exists (S i), t0. repeat split; try done.
    intros [|j] v Hj Hv; simpl in Hv.
    + injection Hv as <-. by apply str_eq_false.
    + apply (Hfst j); [lia|done].
Qed.

Lemma mutate_first_known ts :
  known task_id ts → is_Some (mutate_first task_id mutate ts).
Proof.
  intros H. destruct (mutate_first task_id mutate ts) eqn:E; [done|].
  apply mutate_first_None in E. done.
Qed.
End MutateFirst.

Section MutateTwice.
Variable task_id : PyVal.
Variable mutate : Task → Task.
Hypothesis mutate_id : ∀ t, id (mutate t) = id t.

(** After a mutation the task read back under the identifier is the
    mutated one. *)
Lemma find_task_mutate_first ts t' ts' :
  mutate_first task_id mutate ts = Some (t', ts') →
  find_task task_id ts' = Some t'.
Proof using mutate_id.
  unfold find_task.
  revert t' ts'. induction ts as [|t ts IH]; simpl; [done|].
  intros t' ts'. destruct (str_eq (id t) task_id) eqn:E.
  - intros [= <- <-]. simpl. by rewrite mutate_id, E.
  - destruct (mutate_first task_id mutate ts) as [[u us]|]; [|done].
    intros [= <- <-]. simpl. rewrite E. by apply IH.
Qed.

(** Before it, the task read back is the one the loop stops at. *)
Lemma find_task_before ts t' ts' :
  mutate_first task_id mutate ts = Some (t', ts') →
  ∃ t, find_task task_id ts = Some t ∧ t' = mutate t.
Proof.
  unfold find_task.
  revert t' ts'. induction ts as [|t ts IH]; simpl; [done|].
  intros t' ts'. destruct (str_eq (id t) task_id) eqn:E.
  - intros [= <- <-]. by exists t.
  - destruct (mutate_first task_id mutate ts) as [[u us]|]; [|done].
    intros [= <- <-]. by apply (IH _ us).
Qed.

Hypothesis mutate_idem : ∀ t, mutate (mutate t) = mutate t.

(** Running the loop again finds the same task and changes nothing. *)
Lemma mutate_first_again ts t' ts' :
  mutate_first task_id mutate ts = Some (t', ts') →
  mutate_first task_id mutate ts' = Some (t', ts').
Proof using mutate_id mutate_idem.
  revert t' ts'. induction ts as [|t ts IH]; simpl; [done|].
  intros t' ts'. destruct (str_eq (id t) task_id) eqn:E.
  - intros [= <- <-]. simpl. by rewrite mutate_id, E, mutate_idem.
  - destruct (mutate_first task_id mutate ts) as [[u us]|]; [|done].
    intros [= <- <-]. simpl. rewrite E. by rewrite (IH _ _ eq_refl).
Qed.
End MutateTwice.

Lemma published_topics_app es1 es2 :
  published_topics (es1 ++ es2) = published_topics es1 ++ published_topics es2.
Proof. unfold published_topics. apply omap_app. Qed.

Lemma report_prints label e :
  published_topics (report label e).2 = [] ∧
  (report label e).1 ≠ Returned true.
Proof. unfold report. by destruct (markup_error _). Qed.

Lemma after_print_prints msg style ok label :
  published_topics (after_print msg style ok label).2 = [].
Proof.
  unfold after_print. destruct (markup_error msg); [|done].
  apply report_prints.
Qed.

Lemma after_print_ok msg style ok label :
  markup_error msg = None →
  after_print msg style ok label = (Returned ok, [Print msg style]).
Proof. intros H. unfold after_print. by rewrite H. Qed.

Lemma after_print_rejected msg style ok label e :
  markup_error msg = Some e →
  after_print msg style ok label = report label e.
Proof. intros H. unfold after_print. by rewrite H. Qed.

Lemma after_print_true msg style label :
  (after_print msg style true label).1 = Returned true
  ↔ markup_error msg = None.
Proof.
  unfold after_print. destruct (markup_error msg) as [e|]; [|done].
  split; [|done]. intros H. by destruct (proj2 (report_prints label e)).
Qed.

Lemma after_print_false_not_true msg style label :
  (after_print msg style false label).1 ≠ Returned true.
Proof.
  unfold after_print. destruct (markup_error msg) as [e|]; [|done].
  apply report_prints.
Qed.

(** The state a mutator leaves does not depend on the console. *)
Lemma mutator_agency mutate topic label el task_id a :
  agency_of (mutator mutate topic label el task_id a)
  = mkAgency (tasks_after task_id mutate (tasks a)) (silence_actions a).
Proof.
  unfold mutator, tasks_after.
  destruct (mutate_first task_id mutate (tasks a)) as [[u us]|];
    res_simpl; [done|]. by destruct a.
Qed.

Lemma mutator_tasks mutate topic label el task_id a :
  tasks (agency_of (mutator mutate topic label el task_id a))
  = tasks_after task_id mutate (tasks a).
Proof. by rewrite mutator_agency. Qed.

Lemma mutator_silence mutate topic label el task_id a :
  silence_actions (agency_of (mutator mutate topic label el task_id a))
  = silence_actions a.
Proof. by rewrite mutator_agency. Qed.

Lemma create_task_agency d r c a :
  agency_of (create_task d r c a)
  = mkAgency (tasks a ++ [mkTask (task_name (length (tasks a) + 1)) d r c
                                 (PStr "")])
             (silence_actions a).
Proof. by rewrite create_task_eq. Qed.

(** A found task: the write, the event, then the notice. *)
Lemma mutator_found mutate topic label el task_id a t' ts' :
  mutate_first task_id mutate (tasks a) = Some (t', ts') →
  mutator mutate topic label el task_id a
  = let end_ :=
      if silence_actions a then (Returned true, [])
      else after_print [Lit label; Fmt (description t'); Lit "[/italic]"]
                       "green" true el in
    (end_.1, mkAgency ts' (silence_actions a), Publish topic t' :: end_.2).
Proof. intros E. unfold mutator. by rewrite E. Qed.

Lemma mutator_missing mutate topic label el task_id a :
  ¬ known task_id (tasks a) →
  mutator mutate topic label el task_id a
  = let end_ := after_print (not_found_notice task_id) "bold red" false el in
    (end_.1, a, end_.2).
Proof.
  intros H. unfold mutator.
  by rewrite (proj2 (mutate_first_None task_id mutate (tasks a)) H).
Qed.

Lemma find_task_known task_id ts t :
  find_task task_id ts = Some t → known task_id ts.
Proof.
  unfold find_task. intros [Hin Heq]%find_some.
  exists t. split; [by apply list_elem_of_In|].
  symmetry. by apply str_eq_true.
Qed.

Lemma known_find_task task_id ts :
  known task_id ts → ∃ t, find_task task_id ts = Some t.
Proof.
  intros H.
  destruct (mutate_first_known task_id (λ t, t) ts H) as [[t' ts'] E].
  destruct (find_task_before _ _ _ _ _ E) as (t & Ht & _). by exists t.
Qed.

(** The loop stops at the task that reading back finds. *)
Lemma find_task_mutate_first_Some task_id mutate ts t :
  find_task task_id ts = Some t →
  ∃ ts', mutate_first task_id mutate ts = Some (mutate t, ts').
Proof.
  intros Hf.
  destruct (mutate_first_known task_id mutate ts (find_task_known _ _ _ Hf))
    as [[t' ts'] E].
  destruct (find_task_before _ _ _ _ _ E) as (u & Hu & ->).
  exists ts'. congruence.
Qed.

Lemma count_published_mutator topic (task : Task) (extra : list effect) :
  published_topics extra = [] →
  count_published topic (Publish topic task :: extra) = 1.
Proof.
  intros H. unfold count_published.
  change (published_topics (Publish topic task :: extra))
    with (topic :: published_topics extra).
  rewrite H. by rewrite filter_cons_True.
Qed.

Lemma mutator_published mutate topic label el task_id a t' ts' :
  mutate_first task_id mutate (tasks a) = Some (t', ts') →
  published_topics (effects_of (mutator mutate topic label el task_id a))
    = [topic] ∧
  count_published topic (effects_of (mutator mutate topic label el task_id a))
    = 1.
Proof.
  intros E. rewrite (mutator_found _ _ _ _ _ _ _ _ E). cbv zeta. res_simpl.
  assert (published_topics
            (if silence_actions a then (Returned true, [])
             else after_print [Lit label; Fmt (description t');
                               Lit "[/italic]"] "green" true el).2 = [])
    as Hp.
  { destruct (silence_actions a); [done|]. apply after_print_prints. }
  split; [|by apply count_published_mutator].
  change (published_topics (Publish topic t' :: ?x))
    with (topic :: published_topics x). by rewrite Hp.
Qed.

(** ** complete_task *)

(** With the notice rejected the call does not return true. *)
Lemma complete_task_fails_on_known_id_aux task_id a t e :
  silence_actions a = false →
  find_task task_id (tasks a) = Some t →
  markup_error (completed_notice (description t)) = Some e →
  result_of (complete_task task_id a) ≠ Returned true.
Proof.
  intros Hs Hf He.
  destruct (find_task_mutate_first_Some _ (set_completed (PBool true)) _ _ Hf)
    as [ts' E].
  rewrite complete_task_mutator, (mutator_found _ _ _ _ _ _ _ _ E).
  cbv zeta. rewrite Hs. res_simpl.
  rewrite (after_print_rejected _ _ _ _ e) by exact He.
  apply report_prints.
Qed.


(** C5 fails on the code where the success notice is rejected: on a known
    identifier, with [silence_actions] off and a description the console
    cannot print, [complete_task] sets the completion flag and publishes
    [task_completed], and then does not return true: it returns false if
    the error report gets printed, and the exception leaves the method if
    the report is rejected too. *)
Theorem complete_task_fails_on_known_id
    (task_id : PyVal) (a : Agency) (t : Task) (e : PyVal) :
  silence_actions a = false →
  find_task task_id (tasks a) = Some t →
  markup_error (completed_notice (description t)) = Some e →
  let r := complete_task task_id a in
  known task_id (tasks a) ∧
  result_of r ≠ Returned true ∧
  find_task task_id (tasks (agency_of r))
    = Some (set_completed (PBool true) t) ∧
  count_published "task_completed" (effects_of r) = 1 ∧
  (markup_error [Lit "Error completing task: "; Fmt e] = None →
     result_of r = Returned false) ∧
  (∀ e', markup_error [Lit "Error completing task: "; Fmt e] = Some e' →
     result_of r = Raised e').
Proof.
  intros Hs Hf He. cbv zeta.
  destruct (find_task_mutate_first_Some _ (set_completed (PBool true)) _ _ Hf)
    as [ts' E].
  split; [by eapply find_task_known|].
  split_and!.
  - rewrite complete_task_mutator, (mutator_found _ _ _ _ _ _ _ _ E).
    cbv zeta. rewrite Hs. res_simpl.
    rewrite (after_print_rejected _ _ _ _ e) by exact He.
    apply report_prints.
  - rewrite complete_task_mutator, mutator_tasks. unfold tasks_after.
    rewrite E.
    by apply (find_task_mutate_first task_id (set_completed (PBool true)))
      in E.
  - rewrite complete_task_mutator. by eapply mutator_published.
  - intros Hr. rewrite complete_task_mutator,
      (mutator_found _ _ _ _ _ _ _ _ E).
    cbv zeta. rewrite Hs. res_simpl.
    rewrite (after_print_rejected _ _ _ _ e) by exact He.
    unfold report. by rewrite Hr.
  - intros e' Hr. rewrite complete_task_mutator,
      (mutator_found _ _ _ _ _ _ _ _ E).
    cbv zeta. rewrite Hs. res_simpl.
    rewrite (after_print_rejected _ _ _ _ e) by exact He.
    unfold report. by rewrite Hr.
Qed.

(** Where the notice is silenced or printed, [complete_task] on a known
    identifier is as C5 says: it returns true, sets the flag of the first
    task with the identifier and publishes one [task_completed] event. *)
Lemma complete_task_sound_when_notice_prints task_id a t :
  find_task task_id (tasks a) = Some t →
  silence_actions a = true
  ∨ markup_error (completed_notice (description t)) = None →
  let r := complete_task task_id a in
  result_of r = Returned true ∧
  find_task task_id (tasks (agency_of r))
    = Some (set_completed (PBool true) t) ∧
  count_published "task_completed" (effects_of r) = 1.
Proof.
  intros Hf Hok. cbv zeta.
  destruct (find_task_mutate_first_Some _ (set_completed (PBool true)) _ _ Hf)
    as [ts' E].
  split_and!.
  - rewrite complete_task_mutator, (mutator_found _ _ _ _ _ _ _ _ E).
    cbv zeta. res_simpl. destruct (silence_actions a); [done|].
    destruct Hok as [|Hok]; [done|]. by rewrite after_print_ok.
  - rewrite complete_task_mutator, mutator_tasks. unfold tasks_after.
    rewrite E.
    by apply (find_task_mutate_first task_id (set_completed (PBool true)))
      in E.
  - rewrite complete_task_mutator. by eapply mutator_published.
Qed.

(** A call that returns true found its task. *)
Lemma mutator_true_known mutate topic label el task_id a :
  result_of (mutator mutate topic label el task_id a) = Returned true →
  known task_id (tasks a).
Proof.
  unfold mutator.
  destruct (mutate_first task_id mutate (tasks a)) as [[u us]|] eqn:E;
    res_simpl.
  - intros _.
    destruct (mutate_first_Some _ _ _ _ _ E) as (i & t & Hi & Hid & _).
    exists t. split; [|done]. by eapply list_elem_of_lookup_2.
  - intros H. by destruct (after_print_false_not_true _ _ _ H).
Qed.

(** C6 fails on the code in the same place: on a known identifier whose
    success notice the console rejects (with [silence_actions] off),
    completing twice does leave the agency that completing once leaves,
    with the flag [True], and each call publishes one [task_completed]
    event; but neither call returns true, the second ends as the first. *)
Theorem complete_task_twice_fails_twice
    (task_id : PyVal) (a : Agency) (t : Task) (e : PyVal) :
  silence_actions a = false →
  find_task task_id (tasks a) = Some t →
  markup_error (completed_notice (description t)) = Some e →
  let r1 := complete_task task_id a in
  let r2 := complete_task task_id (agency_of r1) in
  agency_of r2 = agency_of r1 ∧
  (∃ t', find_task task_id (tasks (agency_of r2)) = Some t' ∧
         completed t' = PBool true) ∧
  count_published "task_completed" (effects_of r1) = 1 ∧
  count_published "task_completed" (effects_of r2) = 1 ∧
  result_of r1 ≠ Returned true ∧
  result_of r2 = result_of r1.
Proof.
  intros Hs Hf He. cbv zeta.
  destruct (find_task_mutate_first_Some _ (set_completed (PBool true)) _ _ Hf)
    as [ts' E].
  assert (mutate_first task_id (set_completed (PBool true)) ts'
          = Some (set_completed (PBool true) t, ts')) as E2.
  { by apply (mutate_first_again task_id (set_completed (PBool true))) in E. }
  assert (agency_of (complete_task task_id a)
          = mkAgency ts' (silence_actions a)) as Ha.
  { rewrite complete_task_mutator, mutator_agency. unfold tasks_after.
    by rewrite E. }
  rewrite Ha. split_and!.
  - rewrite complete_task_mutator, mutator_agency. cbn [tasks silence_actions].
    unfold tasks_after. by rewrite E2.
  - exists (set_completed (PBool true) t). split; [|done].
    rewrite complete_task_mutator, mutator_tasks. cbn [tasks].
    unfold tasks_after. rewrite E2.
    by apply (find_task_mutate_first task_id (set_completed (PBool true)))
      in E.
  - rewrite complete_task_mutator. by eapply mutator_published.
  - rewrite complete_task_mutator. by eapply mutator_published.
  - by apply (complete_task_fails_on_known_id_aux task_id a t e).
  - rewrite !complete_task_mutator.
    rewrite (mutator_found _ _ _ _ _ _ _ _ E).
    by rewrite (mutator_found _ _ _ _ _ (mkAgency ts' (silence_actions a))
                  _ _ E2).
Qed.

(** ** Unknown identifiers *)

Lemma not_known_nil task_id : ¬ known task_id [].
Proof. intros (t & Ht & _). by apply elem_of_nil in Ht. Qed.

(** On an unknown identifier a mutator changes and publishes nothing. *)
Lemma unknown_id_changes_nothing task_id a :
  ¬ known task_id (tasks a) →
  untouched a (complete_task task_id a).
Proof.
  intros H. rewrite complete_task_mutator. unfold untouched.
  rewrite (mutator_missing _ _ _ _ _ _ H). cbv zeta. res_simpl.
  rewrite after_print_prints. split_and!; [done..|apply not_elem_of_nil].
Qed.

(** C3, as the code has it: on an unknown identifier each of the three
    mutators leaves the agency as it is and publishes nothing, so nothing
    on the [error] topic either; where the console prints the not-found
    notice, the call prints it and returns false. *)
Theorem unknown_id_returns_false (task_id : PyVal) (a : Agency) :
  ¬ known task_id (tasks a) →
  untouched a (complete_task task_id a) ∧
  (∀ n, untouched a (modify_task_notes task_id n a)) ∧
  (∀ r, untouched a (modify_task_requirements task_id r a)) ∧
  (markup_error (not_found_notice task_id) = None →
   let miss :=
     (Returned false, a, [Print (not_found_notice task_id) "bold red"]) in
   complete_task task_id a = miss ∧
   (∀ n, modify_task_notes task_id n a = miss) ∧
   (∀ r, modify_task_requirements task_id r a = miss)).
Proof.
  intros H. cbv zeta.
  assert (∀ mutate topic label el,
            untouched a (mutator mutate topic label el task_id a)) as Hquiet.
  { intros mutate topic label el. unfold untouched.
    rewrite (mutator_missing _ _ _ _ _ _ H). cbv zeta. res_simpl.
    rewrite after_print_prints. split_and!; [done..|apply not_elem_of_nil]. }
  assert (∀ mutate topic label el,
            markup_error (not_found_notice task_id) = None →
            mutator mutate topic label el task_id a
            = (Returned false, a,
               [Print (not_found_notice task_id) "bold red"])) as Hmiss.
  { intros mutate topic label el Hok.
    rewrite (mutator_missing _ _ _ _ _ _ H). cbv zeta.
    by rewrite after_print_ok. }
  split; [|split; [|split; [|intros Hok; split_and!]]].
  - rewrite complete_task_mutator. apply Hquiet.
  - intros n. rewrite modify_task_notes_mutator. apply Hquiet.
  - intros r. rewrite modify_task_requirements_mutator. apply Hquiet.
  - rewrite complete_task_mutator. by apply Hmiss.
  - intros n. rewrite modify_task_notes_mutator. by apply Hmiss.
  - intros r. rewrite modify_task_requirements_mutator. by apply Hmiss.
Qed.

(** ** Field replacement *)

Lemma mutator_replaces mutate topic label el task_id a t0 :
  (∀ t, id (mutate t) = id t) →
  find_task task_id (tasks a) = Some t0 →
  let r := mutator mutate topic label el task_id a in
  find_task task_id (tasks (agency_of r)) = Some (mutate t0) ∧
  (result_of r = Returned true
   ↔ silence_actions a = true
     ∨ markup_error [Lit label; Fmt (description (mutate t0));
                     Lit "[/italic]"] = None).
Proof.
  intros Hid Hf. cbv zeta.
  destruct (find_task_mutate_first_Some _ mutate _ _ Hf) as [ts' E].
  split.
  - rewrite mutator_tasks. unfold tasks_after. rewrite E.
    by apply (find_task_mutate_first task_id mutate Hid) in E.
  - rewrite (mutator_found _ _ _ _ _ _ _ _ E). cbv zeta. res_simpl.
    destruct (silence_actions a).
    + split; [by left|done].
    + rewrite after_print_true. split; [by right|]. by intros [|].
Qed.

(** C7: on a known identifier the task read back after
    [modify_task_requirements] is the old one with its requirements
    replaced by exactly [R] (nothing of the old list is kept), and after
    [modify_task_notes] the old one with its notes replaced by exactly
    [n]; this holds of every call, the successful ones included.  The call
    is successful (returns true) exactly when the notice is silenced or
    the console prints it. *)
Theorem modify_replaces_field (task_id : PyVal) (a : Agency) :
  known task_id (tasks a) →
  ∃ t0, find_task task_id (tasks a) = Some t0 ∧
    (∀ R, let r := modify_task_requirements task_id R a in
       (∃ t, find_task task_id (tasks (agency_of r)) = Some t ∧
             requirements t = R ∧ t = set_requirements R t0) ∧
       (result_of r = Returned true
        ↔ silence_actions a = true
          ∨ markup_error (requirements_notice (description t0)) = None)) ∧
    (∀ n, let r := modify_task_notes task_id n a in
       (∃ t, find_task task_id (tasks (agency_of r)) = Some t ∧
             notes t = n ∧ t = set_notes n t0) ∧
       (result_of r = Returned true
        ↔ silence_actions a = true
          ∨ markup_error (notes_notice (description t0)) = None)).
Proof.
  intros H. destruct (known_find_task _ _ H) as [t0 Hf].
  exists t0. split; [done|]. split.
  - intros R. cbv zeta. rewrite modify_task_requirements_mutator.
    destruct (mutator_replaces (set_requirements R)
                "task_requirements_modified"
                "Modified requirements for task: [italic]"
                "Error modifying requirements: " task_id a t0
                (λ _, eq_refl) Hf) as [H1 H2].
    split; [by eexists|exact H2].
  - intros n. cbv zeta. rewrite modify_task_notes_mutator.
    destruct (mutator_replaces (set_notes n) "task_notes_modified"
                "Modified notes for task: [italic]"
                "Error modifying notes: " task_id a t0
                (λ _, eq_refl) Hf) as [H1 H2].
    split; [by eexists|exact H2].
Qed.

(** ** Tasks are never removed or reopened *)

Section Keeps.
Variable mutate : Task → Task.
Hypothesis mutate_id : ∀ t, id (mutate t) = id t.
Hypothesis mutate_completed :
  ∀ t, truthy (completed t) = true → truthy (completed (mutate t)) = true.

Lemma mutator_keeps topic label el task_id a i t :
  tasks a !! i = Some t →
  ∃ t', tasks (agency_of (mutator mutate topic label el task_id a)) !! i
          = Some t' ∧
        id t' = id t ∧
        (truthy (completed t) = true → truthy (completed t') = true).
Proof using mutate_id mutate_completed.
  intros Hi. rewrite mutator_tasks. unfold tasks_after.
  destruct (mutate_first task_id mutate (tasks a)) as [[u us]|] eqn:E;
    [|by exists t].
  destruct (mutate_first_Some _ _ _ _ _ E) as (j & t0 & Hj & _ & _ & -> & ->).
  destruct (decide (j = i)) as [->|Hne].
  - assert (t0 = t) as -> by congruence.
    exists (mutate t). split; [|by auto].
    apply list_lookup_insert_eq. by eapply lookup_lt_Some.
  - exists t. by rewrite list_lookup_insert_ne.
Qed.
End Keeps.

Lemma run_op_keeps op a i t :
  tasks a !! i = Some t →
  ∃ t', tasks (agency_of (run_op op a)) !! i = Some t' ∧
        id t' = id t ∧
        (truthy (completed t) = true → truthy (completed t') = true).
Proof.
  intros Hi. destruct op as [d r c|tid|tid n|tid r]; cbn [run_op].
  - rewrite create_task_agency. cbn [tasks]. exists t.
    split; [|done]. by apply lookup_app_l_Some.
  - rewrite complete_task_mutator. by apply mutator_keeps.
  - rewrite modify_task_notes_mutator. by apply mutator_keeps.
  - rewrite modify_task_requirements_mutator. by apply mutator_keeps.
Qed.

Lemma tasks_after_length mutate task_id ts :
  length (tasks_after task_id mutate ts) = length ts.
Proof.
  unfold tasks_after.
  destruct (mutate_first _ _ _) as [[u us]|] eqn:E; [|done].
  destruct (mutate_first_Some _ _ _ _ _ E) as (j & t0 & _ & _ & _ & _ & ->).
  by rewrite length_insert.
Qed.

Lemma mutator_length mutate topic label el task_id a :
  length (tasks (agency_of (mutator mutate topic label el task_id a)))
  = length (tasks a).
Proof. by rewrite mutator_tasks, tasks_after_length. Qed.

Lemma run_op_length op a :
  (length (tasks a) ≤ length (tasks (agency_of (run_op op a))))%nat.
Proof.
  destruct op as [d r c|tid|tid n|tid r]; cbn [run_op].
  - rewrite create_task_agency. cbn [tasks]. rewrite length_app. lia.
  - by rewrite complete_task_mutator, mutator_length.
  - by rewrite modify_task_notes_mutator, mutator_length.
  - by rewrite modify_task_requirements_mutator, mutator_length.
Qed.

(** C10: whatever series of the four operations runs, a task stays at its
    position with its identifier, and a completion flag that was true is
    still true afterwards; the list never gets shorter. *)
Theorem completed_stays_completed
    (ops : list agency_op) (a : Agency) (i : nat) (t : Task) :
  tasks a !! i = Some t →
  ∃ t', tasks (agency_of (run_ops ops a)) !! i = Some t' ∧
        id t' = id t ∧
        (truthy (completed t) = true → truthy (completed t') = true) ∧
        (length (tasks a) ≤ length (tasks (agency_of (run_ops ops a))))%nat.
Proof.
  revert a t. induction ops as [|op ops IH]; intros a t Hi.
  - exists t. by res_simpl.
  - destruct (run_op_keeps op a i t Hi) as (t1 & H1 & Hid1 & Hc1).
    destruct (IH _ _ H1) as (t' & H' & Hid' & Hc' & Hlen).
    exists t'. simpl. res_simpl. split; [done|].
    split; [congruence|]. split; [by auto|].
    etrans; [apply (run_op_length op)|exact Hlen].
Qed.

(** ** Incomplete tasks *)

Lemma keeps_incomplete_filter ts :
  keeps_incomplete ts (filter (λ t, truthy (completed t) = false) ts).
Proof.
  induction ts as [|t ts IH]; [constructor|].
  destruct (truthy (completed t)) eqn:E.
  - rewrite filter_cons_False by congruence. by apply keeps_drop.
  - rewrite filter_cons_True by done. by apply keeps_keep.
Qed.

Lemma keeps_incomplete_unique ts us vs :
  keeps_incomplete ts us → keeps_incomplete ts vs → us = vs.
Proof.
  intros H. revert vs. induction H as [|t ts us E _ IH|t ts us E _ IH];
    intros vs Hv; inversion Hv; subst; try congruence.
  - f_equal. by apply IH.
  - by apply IH.
Qed.

(** C8: [get_incomplete_tasks] returns the tasks whose completion flag is
    false and only those, in the order of the task list: it is the one
    list the selection above allows, it is a sublist of the tasks, and the
    incomplete and the completed tasks together account for every task.
    The described form renders exactly that list. *)
Theorem get_incomplete_tasks_exact (a : Agency) :
  (∀ t, t ∈ get_incomplete_tasks a
        ↔ t ∈ tasks a ∧ truthy (completed t) = false) ∧
  (∀ t, t ∈ get_incomplete_tasks a → truthy (completed t) ≠ true) ∧
  get_incomplete_tasks a `sublist_of` tasks a ∧
  keeps_incomplete (tasks a) (get_incomplete_tasks a) ∧
  (∀ us, keeps_incomplete (tasks a) us → us = get_incomplete_tasks a) ∧
  length (get_incomplete_tasks a) + length (get_completed_tasks a)
    = length (tasks a) ∧
  has_incomplete_tasks a = bool_decide (get_incomplete_tasks a ≠ []) ∧
  get_incomplete_tasks_described a
    = concat (map describe_task (get_incomplete_tasks a)).
Proof.
  unfold get_incomplete_tasks, get_completed_tasks, has_incomplete_tasks,
    get_incomplete_tasks_described, get_incomplete_tasks.
  split_and!.
  - intros t. rewrite list_elem_of_filter. tauto.
  - intros t H. apply list_elem_of_filter in H as [H _]. congruence.
  - apply sublist_filter.
  - apply keeps_incomplete_filter.
  - intros us H. eapply keeps_incomplete_unique; [exact H|].
    apply keeps_incomplete_filter.
  - induction (tasks a) as [|t ts IH]; [done|].
    destruct (truthy (completed t)) eqn:E.
    + rewrite filter_cons_False, filter_cons_True by congruence.
      simpl. rewrite <- IH. lia.
    + rewrite filter_cons_True, filter_cons_False by congruence.
      simpl. by rewrite <- IH.
  - induction (tasks a) as [|t ts IH]; [done|]. simpl.
    destruct (truthy (completed t)) eqn:E; simpl.
    + rewrite filter_cons_False by congruence. done.
    + rewrite filter_cons_True by done. done.
  - induction (filter _ (tasks a)) as [|t ts IH]; [done|].
    simpl. by rewrite IH.
Qed.

(** ** Identifiers *)

Global Instance task_name_inj : Inj (=) (=) task_name.
Proof.
  intros n m H. unfold task_name in H.
  apply (inj (String.app "task_")) in H. by apply (inj pretty) in H.
Qed.

Lemma new_tasks_ids n inputs :
  id <$> new_tasks n inputs = task_name <$> seq (n + 1) (length inputs).
Proof.
  revert n. induction inputs as [|x inputs IH]; intros n; [done|].
  simpl. f_equal. rewrite IH. by replace (S n + 1) with (S (n + 1)) by lia.
Qed.

Lemma new_tasks_args n inputs :
  (λ t, (description t, requirements t, completed t)) <$> new_tasks n inputs
  = inputs.
Proof.
  revert n. induction inputs as [|[[d r] c] inputs IH]; intros n; [done|].
  cbn [new_tasks]. rewrite fmap_cons. simpl. f_equal. apply IH.
Qed.

Lemma report_created_ids label e : created_ids (report label e).2 = [].
Proof. unfold report. by destruct (markup_error _). Qed.

(** [create_task] publishes its task exactly when it returns true. *)
Lemma create_task_created_ids d r c a :
  created_ids (effects_of (create_task d r c a))
  = if returned_true (result_of (create_task d r c a))
    then [task_name (length (tasks a) + 1)] else [].
Proof.
  rewrite create_task_eq. cbv zeta. res_simpl.
  destruct (silence_actions a); [done|].
  destruct (markup_error (created_notice d)) as [e|]; [|done].
  rewrite report_created_ids.
  destruct (report_prints "Error creating task: " e) as [_ H].
  by destruct (report _ e).1 as [[]|].
Qed.

Lemma run_ops_agency_cons op ops a :
  agency_of (run_ops (op :: ops) a)
  = agency_of (run_ops ops (agency_of (run_op op a))).
Proof. reflexivity. Qed.

Lemma run_ops_result_cons op ops a :
  result_of (run_ops (op :: ops) a)
  = result_of (run_op op a)
    :: result_of (run_ops ops (agency_of (run_op op a))).
Proof. reflexivity. Qed.

Lemma run_ops_effects_cons op ops a :
  effects_of (run_ops (op :: ops) a)
  = effects_of (run_op op a)
    ++ effects_of (run_ops ops (agency_of (run_op op a))).
Proof. reflexivity. Qed.

Lemma run_ops_create inputs a :
  let r := run_ops (create_op <$> inputs) a in
  tasks (agency_of r) = tasks a ++ new_tasks (length (tasks a)) inputs ∧
  silence_actions (agency_of r) = silence_actions a ∧
  (result_of r = replicate (length inputs) (Returned true) →
   created_ids (effects_of r) = id <$> new_tasks (length (tasks a)) inputs).
Proof.
  revert a. induction inputs as [|x inputs IH]; intros a; cbv zeta.
  - simpl. res_simpl. by rewrite app_nil_r.
  - destruct x as [[d r] c]. rewrite fmap_cons.
    rewrite run_ops_agency_cons, run_ops_result_cons, run_ops_effects_cons.
    change (run_op (create_op (d, r, c)) a) with (create_task d r c a).
    destruct (IH (agency_of (create_task d r c a))) as (Htasks & Hsil & Hids).
    rewrite create_task_agency in Htasks, Hsil, Hids.
    cbn [tasks silence_actions] in Htasks, Hsil, Hids.
    rewrite length_app in Htasks, Hids. cbn [length] in Htasks, Hids.
    assert (S (length (tasks a)) = length (tasks a) + 1) as Hn by lia.
    rewrite create_task_agency. cbn [new_tasks fst snd]. rewrite Hn.
    split_and!.
    + rewrite Htasks. by rewrite <- app_assoc.
    + done.
    + cbn [length replicate]. intros [= H1 H2]. unfold created_ids in *.
      rewrite omap_app. rewrite (Hids H2).
      pose proof (create_task_created_ids d r c a) as Hc.
      unfold created_ids in Hc. by rewrite Hc, H1.
Qed.

(** C4: when [N] calls of [create_task] on a fresh agency are all
    successful (each returns true), the tasks they append carry the
    identifiers task_1, ..., task_N in call order (the k-th task holds the
    arguments of the k-th call, and the k-th [task_created] event carries
    task_k); no identifier occurs twice. *)
Theorem create_task_ids (inputs : list create_args) (silent : bool) :
  let r := run_ops (create_op <$> inputs) (Agency_init silent) in
  let N := length inputs in
  result_of r = replicate N (Returned true) →
  id <$> tasks (agency_of r) = task_name <$> seq 1 N ∧
  (λ t, (description t, requirements t, completed t)) <$> tasks (agency_of r)
    = inputs ∧
  created_ids (effects_of r) = task_name <$> seq 1 N ∧
  NoDup (id <$> tasks (agency_of r)).
Proof.
  cbv zeta. intros Hok.
  destruct (run_ops_create inputs (Agency_init silent))
    as (Htasks & _ & Hids).
  specialize (Hids Hok).
  simpl in Htasks, Hids. rewrite Htasks, Hids, new_tasks_ids. simpl.
  split_and!; try done.
  - apply new_tasks_args.
  - apply NoDup_fmap; [apply _|]. apply NoDup_seq.
Qed.

(** With [silence_actions] set no console call is made and every
    [create_task] call is successful. *)
Lemma create_task_succeeds_when_silent inputs a :
  silence_actions a = true →
  result_of (run_ops (create_op <$> inputs) a)
  = replicate (length inputs) (Returned true).
Proof.
  revert a. induction inputs as [|[[d r] c] inputs IH]; intros a Hs; [done|].
  rewrite fmap_cons, run_ops_result_cons.
  change (run_op (create_op (d, r, c)) a) with (create_task d r c a).
  rewrite IH by by rewrite create_task_agency.
  rewrite create_task_eq. cbv zeta. res_simpl. by rewrite Hs.
Qed.

(** ** Validation in the Tool wrappers *)

(** C2, as the code has it: the guard sits in the Tool wrapper.  Called
    with an empty requirements list, [run] of [create_task_tool] returns
    the no-description error when the description is missing or falsy and
    the no-requirements error otherwise, leaves the agency (so the task
    count) as it is and emits nothing.  [Agency.create_task] itself does
    not look at the requirements: with an empty list it appends one task,
    and it returns true where its notice is silenced or printed. *)
Theorem create_task_tool_rejects_empty_requirements
    (args : gmap string PyVal) (a : Agency) :
  args !! "requirements" = Some (PList []) →
  create_task_run args a
  = (Returned
       (if truthy (py_get args "description")
        then [Lit "Error creating task: No requirements provided."]
        else [Lit "Error creating task: No description provided."]),
     a, []) ∧
  (∀ d c, let r := create_task d [] c a in
     tasks (agency_of r)
     = tasks a ++ [mkTask (task_name (length (tasks a) + 1)) d [] c
                          (PStr "")] ∧
     length (tasks (agency_of r)) = S (length (tasks a)) ∧
     (silence_actions a = true ∨ markup_error (created_notice d) = None →
        result_of r = Returned true)).
Proof.
  intros H. split.
  - assert (py_get args "requirements" = PList []) as Hr.
    { unfold py_get. by rewrite H. }
    unfold create_task_run. cbv zeta. rewrite !Hr. act_simpl.
    by destruct (truthy (py_get args "description")).
  - intros d c. cbv zeta. rewrite create_task_agency. cbn [tasks].
    split_and!; [done|rewrite length_app; simpl; lia|].
    intros Hok. rewrite create_task_eq. cbv zeta. res_simpl.
    destruct (silence_actions a); [done|].
    destruct Hok as [|Hok]; [done|]. by rewrite Hok.
Qed.

(** A required argument other than [notes] that is absent from the
    mapping makes its wrapper return an error text without touching the
    agency or emitting anything. *)
Lemma wrappers_reject_missing_checked_argument
    (args : gmap string PyVal) (a : Agency) :
  (args !! "description" = None →
     create_task_run args a
     = (Returned [Lit "Error creating task: No description provided."],
        a, [])) ∧
  (args !! "requirements" = None →
     ∃ msg, create_task_run args a = (Returned msg, a, []) ∧
       (msg = [Lit "Error creating task: No description provided."] ∨
        msg = [Lit "Error creating task: No requirements provided."])) ∧
  (args !! "task_id" = None →
     let miss :=
       (Returned [Lit "Task with id "; Fmt PNone; Lit " not found."], a, [])
     in complete_task_run args a = miss ∧
        modify_task_notes_run args a = miss ∧
        modify_task_requirements_run args a = miss) ∧
  (args !! "requirements" = None →
     ∃ msg, modify_task_requirements_run args a = (Returned msg, a, []) ∧
       (msg = [Lit "Task with id "; Fmt PNone; Lit " not found."] ∨
        msg = [Lit "Error modifying task: No requirements provided."])).
Proof.
  split_and!; intros H.
  - unfold create_task_run, py_get. by rewrite H.
  - unfold create_task_run, py_get. rewrite H. act_simpl.
    destruct (truthy (default PNone (args !! "description"))); cbn; eauto.
  - unfold complete_task_run, modify_task_notes_run,
      modify_task_requirements_run, py_get. by rewrite H.
  - unfold modify_task_requirements_run, py_get. rewrite H. act_simpl.
    destruct (is_None (default PNone (args !! "task_id"))) eqn:E.
    + destruct (default PNone (args !! "task_id")); try done. eauto.
    + eauto.
Qed.

(** C1 fails for [modify_task_notes]: [notes] is listed as required in the
    schema, yet with [notes] absent and a known [task_id] the wrapper
    calls [modify_task_notes] with [None], which overwrites the notes of
    the task, publishes [task_notes_modified] and reports success. *)
Theorem modify_task_notes_tool_ignores_missing_notes :
  let a := mkAgency [mkTask "task_1" (PStr "write report") [PStr "intro"]
                            (PBool false) (PStr "draft due Friday")] true in
  let args : gmap string PyVal := {[ "task_id" := PStr "task_1" ]} in
  let t' := mkTask "task_1" (PStr "write report") [PStr "intro"]
                   (PBool false) PNone in
  "notes" ∈ required (parameters modify_task_notes_tool) ∧
  args !! "notes" = None ∧
  function modify_task_notes_tool args a
  = (Returned [Lit "Notes for task with id "; Fmt (PStr "task_1");
               Lit " modified."],
     mkAgency [t'] true,
     [Publish "task_notes_modified" t']) ∧
  tasks (agency_of (function modify_task_notes_tool args a)) ≠ tasks a.
Proof.
  cbv zeta. split_and!.
  - simpl. set_solver.
  - reflexivity.
  - reflexivity.
  - vm_compute. discriminate.
Qed.

(** ** The system prompt *)

Lemma string_app_nil_r (s : string) : s +:+ "" = s.
Proof.
  induction s as [|c s IH]; [done|].
  change (String c (s +:+ "") = String c s). by f_equal.
Qed.

Lemma string_app_assoc (s1 s2 s3 : string) :
  (s1 +:+ s2) +:+ s3 = s1 +:+ (s2 +:+ s3).
Proof.
  induction s1 as [|c s1 IH]; [done|].
  change (String c ((s1 +:+ s2) +:+ s3) = String c (s1 +:+ (s2 +:+ s3))).
  by f_equal.
Qed.

Section ClientFacts.
Context {Backend : Type}.
Variable get_model_response :
  list Message → list Tool → string → Backend → Message * Backend.
Variable on_startup : option (Backend → Backend).

Lemma append_to_system_prompt_Some m l P :
  system_prompt l = Some P →
  append_to_system_prompt m l
  = Some (mkLLM (name l) (model_name l) (Some (P +:+ nl +:+ m)),
          P +:+ nl +:+ m).
Proof. intros H. unfold append_to_system_prompt. by rewrite H. Qed.

(** One call other than [startup], made once the prompt is set, does not
    raise and extends the prompt by what [appended] says. *)
Lemma llm_step_prompt c l b P :
  is_Startup c = false →
  system_prompt l = Some P →
  ∃ l' b' v,
    llm_step get_model_response on_startup c (l, b) = Some (l', b', v) ∧
    system_prompt l' = Some (P +:+ appended [c]).
Proof.
  intros Hc HP. destruct c as [p|ms ts|m p|m]; [done|..]; simpl.
  - unfold get_response. rewrite HP. simpl.
    eexists _, _, _. split; [done|]. by rewrite string_app_nil_r.
  - eexists _, _, _. split; [done|]. by rewrite string_app_nil_r.
  - rewrite (append_to_system_prompt_Some _ _ _ HP). simpl.
    eexists _, _, _. split; [done|]. simpl. by rewrite string_app_nil_r.
Qed.

Lemma llm_run_prompt cs l b P :
  forallb (λ c, negb (is_Startup c)) cs = true →
  system_prompt l = Some P →
  ∃ l' b',
    llm_run get_model_response on_startup cs (l, b) = Some (l', b') ∧
    system_prompt l' = Some (P +:+ appended cs).
Proof.
  revert l b P. induction cs as [|c cs IH]; intros l b P Hcs HP.
  - exists l, b. split; [done|]. simpl. by rewrite string_app_nil_r.
  - simpl in Hcs. apply andb_true_iff in Hcs as [Hc Hcs].
    apply negb_true_iff in Hc.
    destruct (llm_step_prompt c l b P Hc HP) as (l1 & b1 & v & Hstep & HP1).
    destruct (IH l1 b1 _ Hcs HP1) as (l' & b' & Hrun & HP').
    exists l', b'. cbn [llm_run]. rewrite Hstep. simpl. split; [done|].
    rewrite HP'. f_equal. rewrite string_app_assoc. f_equal.
    clear. destruct c; simpl; try done.
    by rewrite string_app_nil_r.
Qed.

(** C9: with the prompt set to [P], [append_to_system_prompt m] stores and
    returns [P], a newline and [m]: [P] is a prefix and [m] a suffix of
    the new prompt.  Any series of calls made after [startup] (responses,
    text responses and appends) runs without raising and leaves the
    prompt equal to [P] followed by the appended messages in order, so
    only the appends change it and [P] stays its prefix. *)
Theorem append_to_system_prompt_extends
    (l : LLM) (b : Backend) (P0 P m : string) (cs : list llm_call) :
  system_prompt l = Some P →
  forallb (λ c, negb (is_Startup c)) cs = true →
  (∃ l', append_to_system_prompt m l = Some (l', P +:+ nl +:+ m) ∧
         system_prompt l' = Some (P +:+ nl +:+ m) ∧
         name l' = name l ∧ model_name l' = model_name l ∧
         (∃ rest, P +:+ nl +:+ m = P +:+ rest) ∧
         (∃ front, P +:+ nl +:+ m = front +:+ m)) ∧
  (∃ l' b',
     llm_run get_model_response on_startup cs
       (startup on_startup P0 l b) = Some (l', b') ∧
     system_prompt l' = Some (P0 +:+ appended cs)).
Proof.
  intros HP Hcs. split.
  - rewrite (append_to_system_prompt_Some _ _ _ HP). eexists. split; [done|].
    simpl. split_and!; try done.
    + by eexists.
    + exists (P +:+ nl). by rewrite string_app_assoc.
  - unfold startup. by apply llm_run_prompt.
Qed.
End ClientFacts.

(** [startup] is the setter: it stores its argument whatever was stored
    before. *)
Lemma startup_sets_prompt {Backend : Type}
    (on_startup : option (Backend → Backend)) p l (b : Backend) :
  system_prompt (startup on_startup p l b).1 = Some p.
Proof. reflexivity. Qed.

Lemma append_to_system_prompt_extends_witness :
  let reply : list Message → list Tool → string → unit → Message * unit :=
    λ _ _ _ b, (mkMessage None (Some "ok") "assistant" None None, b) in
  let l := mkLLM "openai" "gpt-4" (Some "You are Simmy.") in
  let cs := [GetResponse [] []; AppendToSystemPrompt "Be brief.";
             GetTextResponse "hello" "Summarise."] in
  let P := "You are Simmy." in
  let m := "Use tools." in
  system_prompt l = Some P ∧
  forallb (λ c, negb (is_Startup c)) cs = true ∧
  (∃ l', append_to_system_prompt m l = Some (l', P +:+ nl +:+ m) ∧
         system_prompt l' = Some (P +:+ nl +:+ m) ∧
         name l' = name l ∧ model_name l' = model_name l ∧
         (∃ rest, P +:+ nl +:+ m = P +:+ rest) ∧
         (∃ front, P +:+ nl +:+ m = front +:+ m)) ∧
  (∃ l' b',
     llm_run reply None cs (startup None "You are Simmy." l tt)
       = Some (l', b') ∧
     system_prompt l' = Some ("You are Simmy." +:+ appended cs)).
Proof.
  split; [reflexivity|]. split; [reflexivity|].
  apply (append_to_system_prompt_extends _ None); reflexivity.
Defined.

(** ** Series of operations: identifiers, events, notices *)

Lemma tasks_after_cons task_id mutate t ts :
  tasks_after task_id mutate (t :: ts)
  = if str_eq (id t) task_id then mutate t :: ts
    else t :: tasks_after task_id mutate ts.
Proof.
  unfold tasks_after. simpl. destruct (str_eq (id t) task_id); [done|].
  by destruct (mutate_first task_id mutate ts) as [[u us]|].
Qed.

Lemma agency_eq (a b : Agency) :
  tasks a = tasks b → silence_actions a = silence_actions b → a = b.
Proof. destruct a, b; simpl; congruence. Qed.

Section TasksAfter.
Variable mutate : Task → Task.
Hypothesis mutate_id : ∀ t, id (mutate t) = id t.

Lemma tasks_after_ids task_id ts :
  id <$> tasks_after task_id mutate ts = id <$> ts.
Proof using mutate_id.
  induction ts as [|t ts IH]; [done|]. rewrite tasks_after_cons.
  destruct (str_eq (id t) task_id); rewrite !fmap_cons.
  - by rewrite mutate_id.
  - by rewrite IH.
Qed.

(** A later write of the same kind under the same identifier replaces an
    earlier one. *)
Lemma tasks_after_overwrite (later : Task → Task) task_id ts :
  (∀ t, later (mutate t) = later t) →
  tasks_after task_id later (tasks_after task_id mutate ts)
  = tasks_after task_id later ts.
Proof using mutate_id.
  intros H. induction ts as [|t ts IH]; [done|].
  rewrite !tasks_after_cons. destruct (str_eq (id t) task_id) eqn:E.
  - by rewrite tasks_after_cons, mutate_id, E, H.
  - by rewrite tasks_after_cons, E, IH.
Qed.

(** Writes to different fields can be made in either order. *)
Lemma tasks_after_commute (other : Task → Task) i j ts :
  (∀ t, id (other t) = id t) →
  (∀ t, other (mutate t) = mutate (other t)) →
  tasks_after j other (tasks_after i mutate ts)
  = tasks_after i mutate (tasks_after j other ts).
Proof using mutate_id.
  intros Hid Hc. induction ts as [|t ts IH]; [done|].
  rewrite !(tasks_after_cons _ _ t).
  destruct (str_eq (id t) i) eqn:Ei, (str_eq (id t) j) eqn:Ej;
    rewrite !tasks_after_cons, ?mutate_id, ?Hid, ?Ei, ?Ej, ?Hc, ?IH; done.
Qed.
End TasksAfter.

Lemma tasks_after_fmap {B} (g : Task → B) (mutate : Task → Task) task_id ts :
  (∀ t, g (mutate t) = g t) →
  g <$> tasks_after task_id mutate ts = g <$> ts.
Proof.
  intros H. induction ts as [|t ts IH]; [done|]. rewrite tasks_after_cons.
  destruct (str_eq (id t) task_id); rewrite !fmap_cons.
  - by rewrite H.
  - by rewrite IH.
Qed.

Lemma first_description_mutate_first mutate task_id ts :
  (∀ t, key (mutate t) = key t) →
  first_description task_id (key <$> ts)
  = (λ r : Task * list Task, description r.1)
      <$> mutate_first task_id mutate ts.
Proof.
  intros H. induction ts as [|t ts IH]; [done|].
  rewrite fmap_cons. simpl. destruct (str_eq (id t) task_id).
  - simpl. pose proof (H t) as Ht. unfold key in Ht. congruence.
  - rewrite IH. by destruct (mutate_first task_id mutate ts) as [[u us]|].
Qed.

(** How a mutator ends depends on the identifiers and descriptions in the
    list and on [silence_actions] only. *)
Lemma mutator_result mutate topic label el task_id a :
  (∀ t, key (mutate t) = key t) →
  result_of (mutator mutate topic label el task_id a)
  = (mutator_end label el task_id (silence_actions a) (key <$> tasks a)).1.
Proof.
  intros H. unfold mutator, mutator_end.
  rewrite (first_description_mutate_first mutate) by done.
  by destruct (mutate_first task_id mutate (tasks a)) as [[u us]|].
Qed.

Lemma run_op_silence op a :
  silence_actions (agency_of (run_op op a)) = silence_actions a.
Proof.
  destruct op as [d r c|tid|tid n|tid r]; cbn [run_op].
  - by rewrite create_task_agency.
  - by rewrite complete_task_mutator, mutator_silence.
  - by rewrite modify_task_notes_mutator, mutator_silence.
  - by rewrite modify_task_requirements_mutator, mutator_silence.
Qed.

Lemma run_op_ids op a :
  id <$> tasks (agency_of (run_op op a))
  = (id <$> tasks a)
    ++ (if is_create op then [task_name (length (tasks a) + 1)] else []).
Proof.
  destruct op as [d r c|tid|tid n|tid r]; cbn [run_op is_create];
    rewrite ?app_nil_r.
  - rewrite create_task_agency. cbn [tasks]. by rewrite fmap_app.
  - by rewrite complete_task_mutator, mutator_tasks, tasks_after_ids.
  - by rewrite modify_task_notes_mutator, mutator_tasks, tasks_after_ids.
  - by rewrite modify_task_requirements_mutator, mutator_tasks,
      tasks_after_ids.
Qed.

Lemma run_ops_cons op ops a :
  run_ops (op :: ops) a
  = (result_of (run_op op a)
       :: result_of (run_ops ops (agency_of (run_op op a))),
     agency_of (run_ops ops (agency_of (run_op op a))),
     effects_of (run_op op a)
       ++ effects_of (run_ops ops (agency_of (run_op op a)))).
Proof. reflexivity. Qed.

Lemma run_ops_ids ops a :
  id <$> tasks (agency_of (run_ops ops a))
  = (id <$> tasks a)
    ++ (task_name <$> seq (length (tasks a) + 1)
                          (length (filter is_create ops))).
Proof.
  revert a. induction ops as [|op ops IH]; intros a.
  - simpl. by rewrite app_nil_r.
  - rewrite run_ops_cons. unfold agency_of at 1. cbn [fst snd].
    rewrite IH, run_op_ids.
    assert (length (tasks (agency_of (run_op op a)))
            = length (tasks a) + (if is_create op then 1 else 0)) as ->.
    { rewrite <- (length_fmap id), run_op_ids, length_app, length_fmap.
      by destruct (is_create op). }
    destruct (is_create op) eqn:E.
    + rewrite filter_cons_True by by rewrite E.
      simpl. rewrite <- app_assoc. simpl.
      by replace (length (tasks a) + 1 + 1) with (S (length (tasks a) + 1))
        by lia.
    + rewrite filter_cons_False by (rewrite E; simpl; tauto).
      rewrite app_nil_r.
      by replace (length (tasks a) + 0) with (length (tasks a)) by lia.
Qed.

(** X1: whatever series of the four operations runs on a fresh agency, and
    whether or not the other operations succeed, the identifiers in the
    list are task_1, ..., task_N for N the number of [create_task] calls,
    so they are pairwise distinct. *)
Theorem reachable_ids_dense (ops : list agency_op) (silent : bool) :
  let a := agency_of (run_ops ops (Agency_init silent)) in
  id <$> tasks a = task_name <$> seq 1 (length (filter is_create ops)) ∧
  length (tasks a) = length (filter is_create ops) ∧
  NoDup (id <$> tasks a).
Proof.
  cbv zeta. pose proof (run_ops_ids ops (Agency_init silent)) as H.
  simpl in H. split_and!.
  - done.
  - by rewrite <- (length_fmap id), H, length_fmap, length_seq.
  - rewrite H. apply NoDup_fmap; [apply _|]. apply NoDup_seq.
Qed.

Lemma filter_all_id {A} (P : A → Prop) `{∀ x, Decision (P x)} (l : list A) :
  Forall P l → filter P l = l.
Proof.
  induction 1 as [|x l Hx _ IH]; [done|].
  by rewrite filter_cons_True, IH.
Qed.

Lemma incomplete_after_complete task_id ts :
  NoDup (id <$> ts) →
  filter (λ t, truthy (completed t) = false)
         (tasks_after task_id (set_completed (PBool true)) ts)
  = filter (λ t, str_eq (id t) task_id = false)
           (filter (λ t, truthy (completed t) = false) ts).
Proof.
  induction ts as [|t ts IH]; [done|]. rewrite fmap_cons.
  intros [Hnotin Hnd]%NoDup_cons. rewrite tasks_after_cons.
  destruct (str_eq (id t) task_id) eqn:E.
  - rewrite filter_cons_False by (simpl; congruence).
    assert (Forall (λ u, str_eq (id u) task_id = false) ts) as Hall.
    { apply Forall_forall. intros u Hu.
      apply not_true_iff_false. intros Eu.
      apply str_eq_true in E, Eu. apply Hnotin.
      apply list_elem_of_fmap. exists u. split; [congruence|done]. }
    destruct (truthy (completed t)) eqn:Et.
    + rewrite (filter_cons_False _ t) by congruence.
      symmetry. apply filter_all_id.
      apply Forall_forall. intros u Hu%list_elem_of_filter.
      destruct Hu as [_ Hu]. by eapply Forall_forall in Hall.
    + rewrite (filter_cons_True _ t) by done.
      rewrite filter_cons_False by congruence.
      symmetry. apply filter_all_id.
      apply Forall_forall. intros u Hu%list_elem_of_filter.
      destruct Hu as [_ Hu]. by eapply Forall_forall in Hall.
  - destruct (truthy (completed t)) eqn:Et.
    + rewrite !(filter_cons_False _ t) by congruence. by apply IH.
    + rewrite !(filter_cons_True _ t) by done. f_equal. by apply IH.
Qed.

(** X2: when the identifiers in the list are pairwise distinct (as they
    are in every agency built from a fresh one), the incomplete tasks
    after [complete_task] are the ones from before without the task that
    carries the identifier, in the same order; the tasks reported as
    completed afterwards include that task. *)
Theorem complete_task_clears_incomplete (task_id : PyVal) (a : Agency) :
  NoDup (id <$> tasks a) →
  let a' := agency_of (complete_task task_id a) in
  get_incomplete_tasks a'
    = filter (λ t, str_eq (id t) task_id = false) (get_incomplete_tasks a) ∧
  (∀ t, t ∈ get_incomplete_tasks a' → PStr (id t) ≠ task_id) ∧
  (known task_id (tasks a) →
     ∃ t, t ∈ get_completed_tasks a' ∧ PStr (id t) = task_id).
Proof.
  intros Hnd. cbv zeta. unfold get_incomplete_tasks, get_completed_tasks.
  rewrite complete_task_mutator, mutator_agency. cbn [tasks].
  rewrite (incomplete_after_complete _ _ Hnd). split_and!.
  - done.
  - intros t [Ht _]%list_elem_of_filter. by apply str_eq_false.
  - intros Hk.
    destruct (mutate_first_known task_id (set_completed (PBool true)) _ Hk)
      as [[t' ts'] E].
    exists t'. unfold tasks_after. rewrite E.
    destruct (mutate_first_Some _ _ _ _ _ E) as (i & t & Hi & Hid & _ & -> & ->).
    split; [|done]. apply list_elem_of_filter. split; [done|].
    apply list_elem_of_lookup. exists i.
    apply list_lookup_insert_eq. by eapply lookup_lt_Some.
Qed.

Lemma tasks_after_erase (mutate erase : Task → Task) task_id ts :
  (∀ t, erase (mutate t) = erase t) →
  erase <$> tasks_after task_id mutate ts = erase <$> ts.
Proof.
  intros H. induction ts as [|t ts IH]; [done|]. rewrite tasks_after_cons.
  destruct (str_eq (id t) task_id); rewrite !fmap_cons.
  - by rewrite H.
  - by rewrite IH.
Qed.

Lemma tasks_after_one_position mutate task_id ts :
  ∃ i, ∀ j, j ≠ i → tasks_after task_id mutate ts !! j = ts !! j.
Proof.
  unfold tasks_after.
  destruct (mutate_first task_id mutate ts) as [[u us]|] eqn:E.
  - destruct (mutate_first_Some _ _ _ _ _ E) as (i & t & _ & _ & _ & _ & ->).
    exists i. intros j Hj. by apply list_lookup_insert_ne.
  - by exists 0.
Qed.

(** X3: each of the three mutators writes one field of at most one task.
    With that field blanked out, the task list after the call equals the
    one before; all positions but one are untouched, the length and the
    [silence_actions] flag are kept. *)
Theorem mutators_write_one_field (task_id : PyVal) (a : Agency) :
  (∀ n, let a' := agency_of (modify_task_notes task_id n a) in
     set_notes PNone <$> tasks a' = set_notes PNone <$> tasks a ∧
     (∃ i, ∀ j, j ≠ i → tasks a' !! j = tasks a !! j) ∧
     silence_actions a' = silence_actions a) ∧
  (∀ r, let a' := agency_of (modify_task_requirements task_id r a) in
     set_requirements [] <$> tasks a' = set_requirements [] <$> tasks a ∧
     (∃ i, ∀ j, j ≠ i → tasks a' !! j = tasks a !! j) ∧
     silence_actions a' = silence_actions a) ∧
  (let a' := agency_of (complete_task task_id a) in
     set_completed PNone <$> tasks a' = set_completed PNone <$> tasks a ∧
     (∃ i, ∀ j, j ≠ i → tasks a' !! j = tasks a !! j) ∧
     silence_actions a' = silence_actions a).
Proof.
  split_and!; [intros n|intros r|]; cbv zeta.
  - rewrite modify_task_notes_mutator, mutator_agency. cbn [tasks silence_actions].
    split_and!; [by apply tasks_after_erase|apply tasks_after_one_position|done].
  - rewrite modify_task_requirements_mutator, mutator_agency.
    cbn [tasks silence_actions].
    split_and!; [by apply tasks_after_erase|apply tasks_after_one_position|done].
  - rewrite complete_task_mutator, mutator_agency. cbn [tasks silence_actions].
    split_and!; [by apply tasks_after_erase|apply tasks_after_one_position|done].
Qed.

(** X4: the last write wins.  Two [modify_task_notes] calls under the same
    identifier leave the agency that the second alone would leave, and
    return the same result as it; likewise for
    [modify_task_requirements]. *)
Theorem last_write_wins (task_id : PyVal) (a : Agency) :
  (∀ n1 n2,
     let r1 := modify_task_notes task_id n1 a in
     let r2 := modify_task_notes task_id n2 (agency_of r1) in
     agency_of r2 = agency_of (modify_task_notes task_id n2 a) ∧
     result_of r2 = result_of (modify_task_notes task_id n2 a) ∧
     result_of r2 = result_of r1) ∧
  (∀ q1 q2,
     let r1 := modify_task_requirements task_id q1 a in
     let r2 := modify_task_requirements task_id q2 (agency_of r1) in
     agency_of r2 = agency_of (modify_task_requirements task_id q2 a) ∧
     result_of r2 = result_of (modify_task_requirements task_id q2 a) ∧
     result_of r2 = result_of r1).
Proof.
  split; [intros n1 n2|intros q1 q2]; cbv zeta.
  - rewrite !modify_task_notes_mutator, !mutator_result, !mutator_agency
      by done.
    cbn [tasks silence_actions].
    rewrite (tasks_after_fmap key (set_notes n1)) by done.
    split_and!; [|done|done]. f_equal.
    by apply tasks_after_overwrite.
  - rewrite !modify_task_requirements_mutator, !mutator_result,
      !mutator_agency by done.
    cbn [tasks silence_actions].
    rewrite (tasks_after_fmap key (set_requirements q1)) by done.
    split_and!; [|done|done]. f_equal.
    by apply tasks_after_overwrite.
Qed.

Lemma run_op_notes i n a :
  agency_of (run_op (ModifyTaskNotes i n) a)
  = mkAgency (tasks_after i (set_notes n) (tasks a)) (silence_actions a) ∧
  result_of (run_op (ModifyTaskNotes i n) a)
  = (mutator_end "Modified notes for task: [italic]"
       "Error modifying notes: " i (silence_actions a) (key <$> tasks a)).1.
Proof.
  cbn [run_op]. by rewrite modify_task_notes_mutator, mutator_agency,
    mutator_result.
Qed.

Lemma run_op_requirements j q a :
  agency_of (run_op (ModifyTaskRequirements j q) a)
  = mkAgency (tasks_after j (set_requirements q) (tasks a))
             (silence_actions a) ∧
  result_of (run_op (ModifyTaskRequirements j q) a)
  = (mutator_end "Modified requirements for task: [italic]"
       "Error modifying requirements: " j (silence_actions a)
       (key <$> tasks a)).1.
Proof.
  cbn [run_op]. by rewrite modify_task_requirements_mutator, mutator_agency,
    mutator_result.
Qed.

Lemma run_op_complete k a :
  agency_of (run_op (CompleteTask k) a)
  = mkAgency (tasks_after k (set_completed (PBool true)) (tasks a))
             (silence_actions a) ∧
  result_of (run_op (CompleteTask k) a)
  = (mutator_end "Completed task: [italic]" "Error completing task: " k
       (silence_actions a) (key <$> tasks a)).1.
Proof.
  cbn [run_op]. by rewrite complete_task_mutator, mutator_agency,
    mutator_result.
Qed.

(** X5: the three mutators act on different fields and can be called in
    either order, under the same or different identifiers: the agency
    reached and the result each call returns are the same. *)
Theorem mutators_commute (i j k : PyVal) (n : PyVal) (q : list PyVal)
    (a : Agency) :
  let notes_first :=
    run_ops [ModifyTaskNotes i n; ModifyTaskRequirements j q;
             CompleteTask k] a in
  let complete_first :=
    run_ops [CompleteTask k; ModifyTaskRequirements j q;
             ModifyTaskNotes i n] a in
  agency_of notes_first = agency_of complete_first ∧
  result_of notes_first = reverse (result_of complete_first).
Proof.
  cbv zeta. rewrite !run_ops_agency_cons, !run_ops_result_cons.
  rewrite !(proj1 (run_op_notes _ _ _)), !(proj2 (run_op_notes _ _ _)),
    !(proj1 (run_op_requirements _ _ _)),
    !(proj2 (run_op_requirements _ _ _)),
    !(proj1 (run_op_complete _ _)), !(proj2 (run_op_complete _ _)).
  change (agency_of (run_ops [] ?x)) with x.
  change (result_of (run_ops [] ?x)) with (@nil (outcome bool)).
  cbn [tasks silence_actions].
  repeat (progress rewrite ?(tasks_after_fmap key (set_notes n)),
    ?(tasks_after_fmap key (set_requirements q)),
    ?(tasks_after_fmap key (set_completed (PBool true))) by done).
  split; [|done]. f_equal.
  rewrite (tasks_after_commute (set_requirements q) (λ _, eq_refl)
             (set_completed (PBool true)) j k) by done.
  rewrite (tasks_after_commute (set_notes n) (λ _, eq_refl)
             (set_completed (PBool true)) i k) by done.
  by rewrite (tasks_after_commute (set_notes n) (λ _, eq_refl)
                (set_requirements q) i j).
Qed.

Lemma publish_in_topics topic payload es :
  Publish topic payload ∈ es → topic ∈ published_topics es.
Proof.
  intros H. unfold published_topics. apply list_elem_of_omap.
  by exists (Publish topic payload).
Qed.

Lemma mutator_publishes mutate topic label el task_id a :
  let r := mutator mutate topic label el task_id a in
  (published_topics (effects_of r) = [topic] ↔ known task_id (tasks a)) ∧
  (published_topics (effects_of r) = [topic]
   ∨ published_topics (effects_of r) = []) ∧
  (result_of r = Returned true → published_topics (effects_of r) = [topic]).
Proof.
  cbv zeta.
  destruct (mutate_first task_id mutate (tasks a)) as [[u us]|] eqn:E.
  - destruct (mutator_published _ topic label el _ _ _ _ E) as [Hp _].
    rewrite Hp. split_and!; [|by left|done].
    split; [|done]. intros _.
    destruct (mutate_first_Some _ _ _ _ _ E) as (i & t & Hi & Hid & _).
    exists t. split; [|done]. by eapply list_elem_of_lookup_2.
  - apply mutate_first_None in E.
    rewrite (mutator_missing _ _ _ _ _ _ E). cbv zeta. res_simpl.
    rewrite after_print_prints. split_and!; [|by right|].
    + split; [done|]. intros H. by destruct E.
    + intros H. by destruct (after_print_false_not_true _ _ _ H).
Qed.

Lemma create_task_publishes d r c a :
  let res := create_task d r c a in
  (published_topics (effects_of res) = ["task_created"]
   ↔ result_of res = Returned true) ∧
  (published_topics (effects_of res) = ["task_created"]
   ∨ published_topics (effects_of res) = []).
Proof.
  cbv zeta. rewrite create_task_eq. cbv zeta. res_simpl.
  destruct (silence_actions a); [by split; [|left]|].
  destruct (markup_error (created_notice d)) as [e|]; [|by split; [|left]].
  destruct (report_prints "Error creating task: " e) as [-> Hn].
  split; [|by right]. split; [done|]. intros H. by destruct Hn.
Qed.

(** X6: every call publishes at most one event, on the topic of its
    operation, and a call that returns true has published exactly one.
    [create_task] publishes only when it returns true.  A mutator
    publishes exactly when a task carries the identifier: the event goes
    out before the notice, so it is also published by a call that then
    fails on its notice. *)
Theorem publishes_match_successes (op : agency_op) (a : Agency) :
  let r := run_op op a in
  (published_topics (effects_of r) = [topic_for op]
   ∨ published_topics (effects_of r) = []) ∧
  (result_of r = Returned true →
     published_topics (effects_of r) = [topic_for op]) ∧
  match op_task_id op with
  | None =>
      published_topics (effects_of r) = [topic_for op]
      ↔ result_of r = Returned true
  | Some i =>
      published_topics (effects_of r) = [topic_for op] ↔ known i (tasks a)
  end.
Proof.
  destruct op as [d r c|tid|tid n|tid r]; cbv zeta;
    cbn [run_op topic_for op_task_id].
  - destruct (create_task_publishes d r c a) as [H1 H2].
    split_and!; [done|apply H1|done].
  - rewrite complete_task_mutator.
    destruct (mutator_publishes (set_completed (PBool true)) "task_completed"
                "Completed task: [italic]" "Error completing task: " tid a)
      as (H1 & H2 & H3). by split_and!.
  - rewrite modify_task_notes_mutator.
    destruct (mutator_publishes (set_notes n) "task_notes_modified"
                "Modified notes for task: [italic]"
                "Error modifying notes: " tid a) as (H1 & H2 & H3).
    by split_and!.
  - rewrite modify_task_requirements_mutator.
    destruct (mutator_publishes (set_requirements r)
                "task_requirements_modified"
                "Modified requirements for task: [italic]"
                "Error modifying requirements: " tid a) as (H1 & H2 & H3).
    by split_and!.
Qed.

Lemma run_ops_silence ops a :
  silence_actions (agency_of (run_ops ops a)) = silence_actions a.
Proof.
  revert a. induction ops as [|op ops IH]; intros a; [done|].
  by rewrite run_ops_agency_cons, IH, run_op_silence.
Qed.

(** X7: [silence_actions] is never written, and with the flag set the
    operations make no console call on their success path: [create_task],
    and each mutator called with a known identifier, returns true, prints
    nothing and publishes its event, whatever the console would do with
    the description. *)
Theorem silence_actions_mutes_successes (ops : list agency_op) (a : Agency) :
  silence_actions (agency_of (run_ops ops a)) = silence_actions a ∧
  (silence_actions a = true →
   ∀ op,
     match op_task_id op with
     | None => True
     | Some i => known i (tasks a)
     end →
     result_of (run_op op a) = Returned true ∧
     filter is_Print (effects_of (run_op op a)) = [] ∧
     published_topics (effects_of (run_op op a)) = [topic_for op]).
Proof.
  split; [apply run_ops_silence|]. intros Hs op Hk.
  assert (∀ mutate topic label el i,
            known i (tasks a) →
            let r := mutator mutate topic label el i a in
            result_of r = Returned true ∧
            filter is_Print (effects_of r) = [] ∧
            published_topics (effects_of r) = [topic]) as Hm.
  { intros mutate topic label el i Hi. cbv zeta.
    destruct (mutate_first_known i mutate _ Hi) as [[t' ts'] E].
    rewrite (mutator_found _ _ _ _ _ _ _ _ E). cbv zeta. by rewrite Hs. }
  destruct op as [d r c|tid|tid n|tid r]; cbn [run_op topic_for op_task_id] in *.
  - rewrite create_task_eq. cbv zeta. by rewrite Hs.
  - rewrite complete_task_mutator. by apply Hm.
  - rewrite modify_task_notes_mutator. by apply Hm.
  - rewrite modify_task_requirements_mutator. by apply Hm.
Qed.

Lemma mutator_payload mutate topic label el task_id a topic' payload :
  (∀ t, id (mutate t) = id t) →
  Publish topic' payload
    ∈ effects_of (mutator mutate topic label el task_id a) →
  topic' = topic ∧
  find_task task_id
    (tasks (agency_of (mutator mutate topic label el task_id a)))
    = Some payload ∧
  ∃ t, payload = mutate t.
Proof.
  intros Hid.
  destruct (mutate_first task_id mutate (tasks a)) as [[u us]|] eqn:E.
  - rewrite (mutator_found _ _ _ _ _ _ _ _ E). cbv zeta. res_simpl.
    intros [H|H]%elem_of_cons.
    + injection H as -> ->. split_and!; try done.
      * by apply (find_task_mutate_first task_id mutate Hid) in E.
      * destruct (mutate_first_Some _ _ _ _ _ E) as (_ & t & _ & _ & _ & -> & _).
        by exists t.
    + apply publish_in_topics in H.
      destruct (silence_actions a); [by apply elem_of_nil in H|].
      rewrite after_print_prints in H. by apply elem_of_nil in H.
  - apply mutate_first_None in E.
    rewrite (mutator_missing _ _ _ _ _ _ E). cbv zeta. res_simpl.
    intros H%publish_in_topics. rewrite after_print_prints in H.
    by apply elem_of_nil in H.
Qed.

(** X8: an event carries the task as stored after the write.  The payload
    of an event published by an operation is, for [create_task], the last
    task of the list with the fields passed in and empty notes; for the
    mutators, the task read back under the identifier, with the completion
    flag [True], the new notes or the new requirements.  The topic is the
    one of the operation. *)
Theorem payload_is_stored_task
    (op : agency_op) (a : Agency) (topic : string) (payload : Task) :
  Publish topic payload ∈ effects_of (run_op op a) →
  let a' := agency_of (run_op op a) in
  topic = topic_for op ∧
  payload ∈ tasks a' ∧
  match op with
  | CreateTask d r c =>
      last (tasks a') = Some payload ∧
      payload = mkTask (task_name (length (tasks a) + 1)) d r c (PStr "")
  | CompleteTask i =>
      find_task i (tasks a') = Some payload ∧ completed payload = PBool true
  | ModifyTaskNotes i n =>
      find_task i (tasks a') = Some payload ∧ notes payload = n
  | ModifyTaskRequirements i r =>
      find_task i (tasks a') = Some payload ∧ requirements payload = r
  end.
Proof.
  assert (∀ i ts t, find_task i ts = Some t → t ∈ ts) as Hfind.
  { intros i ts t H. unfold find_task in H.
    apply find_some in H as [H _]. by apply list_elem_of_In. }
  destruct op as [d r c|tid|tid n|tid r]; cbv zeta; cbn [run_op topic_for].
  - intros H. rewrite create_task_agency. cbn [tasks].
    assert (payload = mkTask (task_name (length (tasks a) + 1)) d r c
                             (PStr "") ∧ topic = "task_created") as [-> ->].
    { rewrite create_task_eq in H. cbv zeta in H. res_simpl.
      destruct (silence_actions a).
      - apply list_elem_of_singleton in H. by injection H as -> ->.
      - destruct (markup_error (created_notice d)) as [e|].
        + apply publish_in_topics in H.
          rewrite (proj1 (report_prints _ _)) in H.
          by apply elem_of_nil in H.
        + apply elem_of_cons in H as [H|H]; [discriminate|].
          apply list_elem_of_singleton in H. by injection H as -> ->. }
    split_and!; try done.
    + apply elem_of_app. right. by apply list_elem_of_singleton.
    + by rewrite last_snoc.
  - rewrite complete_task_mutator. intros H.
    apply mutator_payload in H as (-> & Hf & t & ->); [|done].
    split_and!; eauto.
  - rewrite modify_task_notes_mutator. intros H.
    apply mutator_payload in H as (-> & Hf & t & ->); [|done].
    split_and!; eauto.
  - rewrite modify_task_requirements_mutator. intros H.
    apply mutator_payload in H as (-> & Hf & t & ->); [|done].
    split_and!; eauto.
Qed.

(** ** The wrappers on valid and invalid arguments *)

(** A wrapper's last steps: it passes an exception on and turns the
    boolean into one of two texts. *)
Lemma bind_report (m : Act bool) (no yes : text) (a : Agency) :
  (m ≫= λ worked : bool, if negb worked then mret no else mret yes) a
  = (match result_of (m a) with
     | Returned worked => Returned (if worked then yes else no)
     | Raised e => Raised e
     end, agency_of (m a), effects_of (m a)).
Proof.
  act_simpl. res_simpl. destruct (m a) as [[[[]|e] a'] es]; cbn;
    by rewrite ?app_nil_r.
Qed.

(** X9: given a truthy description and a non-empty list of requirements,
    the [create_task] wrapper calls [create_task] with them: the agency
    and the effects are those of that call, one task built from the
    arguments is appended, and the wrapper reports the identifier of that
    very task when the call returns true, the plain error text when it
    returns false, and lets an exception through.  The call returns true
    where the notice is silenced or printed.  The stored completion flag
    is the [completed] argument when it is truthy and [False] otherwise
    (absent, [None], [0], an empty string or list), so the new task counts
    as incomplete exactly when the argument is absent or falsy. *)
Theorem create_task_tool_creates
    (args : gmap string PyVal) (a : Agency) (d r : PyVal) (rs : list PyVal) :
  args !! "description" = Some d →
  truthy d = true →
  args !! "requirements" = Some (PList (r :: rs)) →
  let c := py_or (py_get args "completed") (PBool false) in
  let new := mkTask (task_name (length (tasks a) + 1)) d (r :: rs) c
                    (PStr "") in
  let res := create_task_run args a in
  let op := create_task d (r :: rs) c a in
  agency_of res = agency_of op ∧
  effects_of res = effects_of op ∧
  tasks (agency_of res) = tasks a ++ [new] ∧
  result_of res
  = match result_of op with
    | Returned true =>
        Returned [Lit "Task created with id "; Fmt (PStr (id new)); Lit "."]
    | Returned false => Returned [Lit "Error creating task."]
    | Raised e => Raised e
    end ∧
  (silence_actions a = true ∨ markup_error (created_notice d) = None →
     result_of res
     = Returned [Lit "Task created with id "; Fmt (PStr (id new));
                 Lit "."]) ∧
  (c = PBool false ∨ (truthy c = true ∧ c = py_get args "completed")) ∧
  (new ∈ get_incomplete_tasks (agency_of res)
   ↔ truthy (py_get args "completed") = false).
Proof.
  intros Hd Htd Hr. cbv zeta.
  assert (py_get args "description" = d) as Hd'.
  { unfold py_get. by rewrite Hd. }
  assert (py_get args "requirements" = PList (r :: rs)) as Hr'.
  { unfold py_get. by rewrite Hr. }
  set (c := py_or (py_get args "completed") (PBool false)).
  assert (create_task_run args a
          = (match result_of (create_task d (r :: rs) c a) with
             | Returned true =>
                 Returned [Lit "Task created with id ";
                           Fmt (PStr (task_name (length (tasks a) + 1)));
                           Lit "."]
             | Returned false => Returned [Lit "Error creating task."]
             | Raised e => Raised e
             end,
             agency_of (create_task d (r :: rs) c a),
             effects_of (create_task d (r :: rs) c a))) as ->.
  { unfold create_task_run. cbv zeta. rewrite !Hd', !Hr'. fold c.
    unfold get_new_task_id. act_simpl. rewrite Htd. cbn. res_simpl.
    destruct (create_task d (r :: rs) c a) as [[[[]|e] a'] es]; cbn;
      by rewrite ?app_nil_r. }
  res_simpl. rewrite create_task_eq. cbv zeta. cbn [fst snd tasks].
  split_and!; try done.
  - intros Hok. destruct (silence_actions a); [done|].
    destruct Hok as [|Hok]; [done|]. by rewrite Hok.
  - unfold c, py_or.
    destruct (truthy (py_get args "completed")) eqn:E; eauto.
  - unfold get_incomplete_tasks. cbn [tasks].
    rewrite list_elem_of_filter. cbn [completed]. unfold c, py_or.
    destruct (truthy (py_get args "completed")) eqn:E.
    + split; [|done]. intros [H _]. congruence.
    + split; [done|]. intros _. split; [done|].
      apply elem_of_app. right. by apply list_elem_of_singleton.
Qed.

(** X10: a [requirements] argument that is not a non-empty list never
    reaches the agency, in neither wrapper that takes one: the call
    returns a text, the agency is unchanged and nothing is emitted.  When
    the other argument is in order the text is the no-requirements error
    for a falsy value and the must-be-a-list error for a truthy one. *)
Theorem wrappers_reject_bad_requirements
    (args : gmap string PyVal) (a : Agency) (v : PyVal) :
  args !! "requirements" = Some v →
  (∀ r rs, v ≠ PList (r :: rs)) →
  (∃ msg, create_task_run args a = (Returned msg, a, []) ∧
     (truthy (py_get args "description") = true →
        msg = if truthy v
              then [Lit "Error creating task: Requirements must be a list."]
              else [Lit "Error creating task: No requirements provided."])) ∧
  (∃ msg, modify_task_requirements_run args a = (Returned msg, a, []) ∧
     (py_get args "task_id" ≠ PNone →
        msg = if truthy v
              then [Lit "Error modifying task: Requirements must be a list."]
              else [Lit "Error modifying task: No requirements provided."])).
Proof.
  intros Hv Hbad.
  assert (py_get args "requirements" = v) as Hr.
  { unfold py_get. by rewrite Hv. }
  assert (truthy v = false ∨
          (truthy v = true ∧ ∀ X (k : list PyVal → X) (e : X),
             match v with PList reqs => k reqs | _ => e end = e)) as Hcase.
  { destruct v as [|b|z|s|[|r rs]]; try (by destruct (Hbad r rs));
      destruct (truthy _) eqn:E; eauto. }
  split.
  - unfold create_task_run. cbv zeta. rewrite !Hr. act_simpl.
    destruct (truthy (py_get args "description")); cbn;
      [|by eexists; split; [done|]].
    destruct Hcase as [->|[-> Hm]]; cbn; [by eauto|].
    rewrite Hm. by eauto.
  - unfold modify_task_requirements_run. cbv zeta. rewrite !Hr. act_simpl.
    destruct (is_None (py_get args "task_id")) eqn:Ei; cbn.
    { eexists. split; [done|]. intros H.
      by destruct (py_get args "task_id"). }
    destruct Hcase as [->|[-> Hm]]; cbn; [by eauto|].
    rewrite Hm. by eauto.
Qed.

(** X11: given any [task_id] other than [None], the [complete_task] and
    [modify_task_notes] wrappers do to the agency and emit exactly what
    the operation does, and their result follows its outcome: the success
    text when it returns true, the error text when it returns false, the
    exception when it raises.  The success text implies that a task
    carries the identifier; a [task_id] that is not a string (a number,
    say) is passed on and never matches. *)
Theorem mutator_tools_report_outcome
    (args : gmap string PyVal) (a : Agency) (v : PyVal) :
  args !! "task_id" = Some v →
  v ≠ PNone →
  (let r := complete_task_run args a in
     agency_of r = agency_of (complete_task v a) ∧
     effects_of r = effects_of (complete_task v a) ∧
     result_of r
     = match result_of (complete_task v a) with
       | Returned true =>
           Returned [Lit "Task with id "; Fmt v; Lit " marked as complete."]
       | Returned false =>
           Returned [Lit "Error completing task with id "; Fmt v; Lit "."]
       | Raised e => Raised e
       end ∧
     (result_of (complete_task v a) = Returned true → known v (tasks a))) ∧
  (let r := modify_task_notes_run args a in
   let n := py_get args "notes" in
     agency_of r = agency_of (modify_task_notes v n a) ∧
     effects_of r = effects_of (modify_task_notes v n a) ∧
     result_of r
     = match result_of (modify_task_notes v n a) with
       | Returned true =>
           Returned [Lit "Notes for task with id "; Fmt v; Lit " modified."]
       | Returned false =>
           Returned [Lit "Error modifying notes for task with id "; Fmt v;
                     Lit "."]
       | Raised e => Raised e
       end ∧
     (result_of (modify_task_notes v n a) = Returned true
      → known v (tasks a))) ∧
  ((∀ s, v ≠ PStr s) → ¬ known v (tasks a)).
Proof.
  intros Hv Hn.
  assert (py_get args "task_id" = v) as Hi.
  { unfold py_get. by rewrite Hv. }
  assert (is_None v = false) as Hnone by by destruct v.
  split_and!; cbv zeta.
  - unfold complete_task_run. cbv zeta. rewrite !Hi, Hnone, bind_report.
    res_simpl. split_and!; try done.
    + by destruct (complete_task v a) as [[[[]|e] a'] es].
    + rewrite complete_task_mutator. apply mutator_true_known.
  - unfold modify_task_notes_run. cbv zeta. rewrite !Hi, Hnone, bind_report.
    res_simpl. split_and!; try done.
    + by destruct (modify_task_notes v _ a) as [[[[]|e] a'] es].
    + rewrite modify_task_notes_mutator. apply mutator_true_known.
  - intros Hs (t & _ & Ht). by apply (Hs (id t)).
Qed.

(** X18: given a [task_id] other than [None] and a non-empty list of
    requirements, the [modify_task_requirements] wrapper does to the
    agency and emits exactly what the operation does with that list, and
    its result follows the outcome of the operation: the success text when
    it returns true (which implies that a task carries the identifier),
    the error text when it returns false, the exception when it raises. *)
Theorem modify_task_requirements_tool_reports_outcome
    (args : gmap string PyVal) (a : Agency) (v r : PyVal) (rs : list PyVal) :
  args !! "task_id" = Some v →
  v ≠ PNone →
  args !! "requirements" = Some (PList (r :: rs)) →
  let res := modify_task_requirements_run args a in
  let op := modify_task_requirements v (r :: rs) a in
  agency_of res = agency_of op ∧
  effects_of res = effects_of op ∧
  result_of res
  = match result_of op with
    | Returned true =>
        Returned [Lit "Requirements for task with id "; Fmt v;
                  Lit " modified."]
    | Returned false =>
        Returned [Lit "Error modifying requirements for task with id ";
                  Fmt v; Lit "."]
    | Raised e => Raised e
    end ∧
  (result_of op = Returned true → known v (tasks a)).
Proof.
  intros Hv Hn Hr. cbv zeta.
  assert (py_get args "task_id" = v) as Hi.
  { unfold py_get. by rewrite Hv. }
  assert (py_get args "requirements" = PList (r :: rs)) as Hq.
  { unfold py_get. by rewrite Hr. }
  assert (is_None v = false) as Hnone by by destruct v.
  unfold modify_task_requirements_run. cbv zeta.
  rewrite !Hi, !Hq, Hnone. cbn [truthy negb]. rewrite bind_report.
  res_simpl. split_and!; try done.
  - by destruct (modify_task_requirements v _ a) as [[[[]|e] a'] es].
  - rewrite modify_task_requirements_mutator. apply mutator_true_known.
Qed.

(** ** Listings *)

Lemma describe_task_not_nil t : describe_task t ≠ [].
Proof. unfold describe_task. simpl. discriminate. Qed.

Lemma get_tasks_described_nil ts : get_tasks_described ts = [] ↔ ts = [].
Proof.
  destruct ts as [|t ts]; [done|]. split; [|done].
  cbn [get_tasks_described]. intros H.
  apply app_eq_nil in H as [H _]. by destruct (describe_task_not_nil t).
Qed.

(** X12: the text given to the model for the open work is empty exactly
    when [has_incomplete_tasks] is false, that is when every task has a
    truthy completion flag (in particular when there is no task); and the
    text of a list is the texts of its tasks one after the other. *)
Theorem described_empty_iff_nothing_open (a : Agency) :
  (get_incomplete_tasks_described a = [] ↔ has_incomplete_tasks a = false) ∧
  (has_incomplete_tasks a = false
   ↔ ∀ t, t ∈ tasks a → truthy (completed t) = true) ∧
  (∀ ts1 ts2, get_tasks_described (ts1 ++ ts2)
              = get_tasks_described ts1 ++ get_tasks_described ts2).
Proof.
  assert (has_incomplete_tasks a = false
          ↔ ∀ t, t ∈ tasks a → truthy (completed t) = true) as Hall.
  { unfold has_incomplete_tasks. induction (tasks a) as [|t ts IH]; simpl.
    - split; [|done]. intros _ t Ht. by apply elem_of_nil in Ht.
    - rewrite orb_false_iff, negb_false_iff, IH. split.
      + intros [Ht Hts] u [->|Hu]%elem_of_cons; auto.
      + intros H. split; [apply H; left|]. intros u Hu. apply H. by right. }
  split_and!; [|done|].
  - rewrite Hall. unfold get_incomplete_tasks_described, get_incomplete_tasks.
    rewrite get_tasks_described_nil. split.
    + intros H t Ht. destruct (truthy (completed t)) eqn:E; [done|].
      assert (t ∈ filter (λ t, truthy (completed t) = false) (tasks a)) as Hin
        by by apply list_elem_of_filter.
      rewrite H in Hin. by apply elem_of_nil in Hin.
    + clear Hall. generalize (tasks a). clear a.
      intros ts H. induction ts as [|t ts IH]; [done|].
      rewrite filter_cons_False.
      * apply IH. intros u Hu. apply H. by right.
      * rewrite (H t) by left. done.
  - intros ts1 ts2. induction ts1 as [|t ts1 IH]; [done|].
    simpl. by rewrite IH, app_assoc.
Qed.

(** X13: [get_completed_tasks] returns the tasks whose completion flag is
    truthy, in list order; no task is both in it and in
    [get_incomplete_tasks], and the two lists together are a
    rearrangement of the task list. *)
Theorem completed_and_incomplete_split (a : Agency) :
  (∀ t, t ∈ get_completed_tasks a
        ↔ t ∈ tasks a ∧ truthy (completed t) = true) ∧
  get_completed_tasks a `sublist_of` tasks a ∧
  (∀ t, t ∈ get_completed_tasks a → t ∉ get_incomplete_tasks a) ∧
  get_incomplete_tasks a ++ get_completed_tasks a ≡ₚ tasks a.
Proof.
  unfold get_completed_tasks, get_incomplete_tasks. split_and!.
  - intros t. rewrite list_elem_of_filter. tauto.
  - apply sublist_filter.
  - intros t [H1 _]%list_elem_of_filter [H2 _]%list_elem_of_filter.
    congruence.
  - induction (tasks a) as [|t ts IH]; [done|].
    destruct (truthy (completed t)) eqn:E.
    + rewrite filter_cons_False, filter_cons_True by congruence.
      rewrite <- Permutation_middle. by constructor.
    + rewrite filter_cons_True, filter_cons_False by congruence.
      simpl. by constructor.
Qed.

(** ** The client before and after startup *)

Section ClientUse.
Context {Backend : Type}.
Variable get_model_response :
  list Message → list Tool → string → Backend → Message * Backend.
Variable on_startup : option (Backend → Backend).

(** X14: until [startup] has run there is no stored prompt, and both
    [get_response] and [append_to_system_prompt] raise, as does any series
    of calls that begins with one of them; [get_text_response] takes its
    prompt as an argument and works regardless.  Right after
    [startup p], [get_response] hands the backend exactly [p]. *)
Theorem prompt_needed_before_use (l : LLM) (b : Backend) :
  system_prompt l = None →
  (∀ ms ts, get_response get_model_response ms ts l b = None) ∧
  (∀ m, append_to_system_prompt m l = None) ∧
  (∀ ms ts cs,
     llm_run get_model_response on_startup (GetResponse ms ts :: cs) (l, b)
     = None) ∧
  (∀ m cs,
     llm_run get_model_response on_startup
       (AppendToSystemPrompt m :: cs) (l, b) = None) ∧
  (∀ m p, is_Some (llm_step get_model_response on_startup
                     (GetTextResponse m p) (l, b))) ∧
  (∀ p ms ts,
     let st := startup on_startup p l b in
     get_response get_model_response ms ts st.1 st.2
     = Some (get_model_response ms ts p st.2)).
Proof.
  intros H. split_and!; try done.
  - intros ms ts. unfold get_response. by rewrite H.
  - intros m. unfold append_to_system_prompt. by rewrite H.
  - intros ms ts cs. simpl. unfold get_response. by rewrite H.
  - intros m cs. simpl. unfold append_to_system_prompt. by rewrite H.
Qed.

(** X15: what the backend is shown follows the appends.  After [startup p]
    and any series of later calls other than [startup], [get_response]
    passes the backend [p] followed by every appended message, each
    behind a newline, in the order of the calls; the name and the model
    name of the client are as before. *)
Theorem get_response_sees_appended_prompt
    (l : LLM) (b : Backend) (p : string) (cs : list llm_call)
    (ms : list Message) (ts : list Tool) :
  forallb (λ c, negb (is_Startup c)) cs = true →
  ∃ l' b',
    llm_run get_model_response on_startup cs (startup on_startup p l b)
    = Some (l', b') ∧
    get_response get_model_response ms ts l' b'
    = Some (get_model_response ms ts (p +:+ appended cs) b') ∧
    name l' = name l ∧ model_name l' = model_name l.
Proof.
  intros Hcs. unfold startup.
  set (b0 := match on_startup with Some f => f b | None => b end).
  set (l0 := mkLLM (name l) (model_name l) (Some p)).
  assert (∀ cs l1 b1 l2 b2,
            llm_run get_model_response on_startup cs (l1, b1) = Some (l2, b2) →
            forallb (λ c, negb (is_Startup c)) cs = true →
            name l2 = name l1 ∧ model_name l2 = model_name l1) as Hkeep.
  { clear. induction cs as [|c cs IH]; intros l1 b1 l2 b2 Hrun Hcs.
    - by injection Hrun as -> ->.
    - simpl in Hcs. apply andb_true_iff in Hcs as [Hc Hcs].
      cbn [llm_run] in Hrun.
      destruct (llm_step get_model_response on_startup c (l1, b1))
        as [[[l3 b3] v]|] eqn:E; [|done].
      simpl in Hrun. destruct (IH _ _ _ _ Hrun Hcs) as [-> ->].
      destruct c as [q|ms ts|m q|m]; simpl in E; [done|..].
      + destruct (get_response _ _ _ _ _); simpl in E; [|done].
        by injection E as <- _ _.
      + by injection E as <- _ _.
      + destruct (append_to_system_prompt m l1) as [[l4 s]|] eqn:Ea;
          simpl in E; [|done]. injection E as <- _ _.
        unfold append_to_system_prompt in Ea.
        destruct (system_prompt l1); simpl in Ea; [|done].
        by injection Ea as <- _. }
  destruct (llm_run_prompt get_model_response on_startup cs l0 b0 p Hcs
              eq_refl) as (l' & b' & Hrun & HP).
  exists l', b'. split; [done|]. split.
  - unfold get_response. by rewrite HP.
  - by apply (Hkeep _ _ _ _ _ Hrun Hcs).
Qed.
End ClientUse.

Lemma prompt_needed_before_use_witness :
  let reply : list Message → list Tool → string → unit → Message * unit :=
    λ _ _ _ b, (mkMessage None None "assistant" None None, b) in
  let l := mkLLM "openai" "gpt-4" None in
  system_prompt l = None ∧
  (∀ ms ts, get_response reply ms ts l tt = None) ∧
  (∀ m, append_to_system_prompt m l = None).
Proof.
  split; [reflexivity|].
  pose proof (prompt_needed_before_use
                (λ _ _ _ b, (mkMessage None None "assistant" None None, b))
                None (mkLLM "openai" "gpt-4" None) tt eq_refl)
    as (H1 & H2 & _).
  split; [exact H1|exact H2].
Defined.

Lemma get_response_sees_appended_prompt_witness :
  let reply : list Message → list Tool → string → unit → Message * unit :=
    λ _ _ p b, (mkMessage None (Some p) "assistant" None None, b) in
  let cs := [AppendToSystemPrompt "Be brief."; GetResponse [] [];
             AppendToSystemPrompt "Use tools."] in
  forallb (λ c, negb (is_Startup c)) cs = true ∧
  ∃ l' b',
    llm_run reply None cs (startup None "You are Simmy."
                             (mkLLM "openai" "gpt-4" None) tt)
    = Some (l', b') ∧
    get_response reply [] [] l' b'
    = Some (reply [] [] ("You are Simmy." +:+ appended cs) b') ∧
    name l' = "openai" ∧ model_name l' = "gpt-4".
Proof.
  split; [reflexivity|].
  apply (get_response_sees_appended_prompt
           (λ _ _ p b, (mkMessage None (Some p) "assistant" None None, b))
           None (mkLLM "openai" "gpt-4" None) tt "You are Simmy.").
  reflexivity.
Defined.

(** ** run_js *)

Section RunJsFacts.
Variable launch_error : option PyVal.
Variable get_error : PyVal → option PyVal.
Variable execute_script : PyVal → PyVal → PyVal + PyVal.

(** X16: [run] looks at the presence of the keys only.  Without a [url]
    key it returns the no-URL text (which names [web_request]), also when
    [script] is missing too; with [url] but without [script] it returns
    the no-script text; in both cases no browser is started.  With both
    keys present, whatever their values ([None] included), the browser is
    started. *)
Theorem run_js_checks_keys (args : gmap string PyVal) :
  let r := run_js_run launch_error get_error execute_script args in
  (args !! "url" = None →
     r = (Returned [Lit "Error running web_request: No URL provided."], [])) ∧
  (is_Some (args !! "url") → args !! "script" = None →
     r = (Returned [Lit "Error running run_js: No script provided."], [])) ∧
  (is_Some (args !! "url") → is_Some (args !! "script") →
     head r.2 = Some Launch) ∧
  (r.2 = [] ↔ args !! "url" = None ∨ args !! "script" = None).
Proof.
  cbv zeta. unfold run_js_run.
  destruct (args !! "url") as [u|] eqn:Eu.
  - assert (Nat.eqb (size args) 0 = false) as ->.
    { apply Nat.eqb_neq. intros H%map_size_empty_iff. subst args.
      by rewrite lookup_empty in Eu. }
    rewrite bool_decide_eq_false_2 by done. cbn [orb].
    destruct (args !! "script") as [s|] eqn:Es.
    + rewrite bool_decide_eq_false_2 by done.
      split_and!; try done.
      * intros _ _. destruct launch_error; [done|].
        destruct (get_error _); [done|]. by destruct (execute_script _ _).
      * split; [|by intros [|]].
        destruct launch_error; [done|].
        destruct (get_error _); [done|]. by destruct (execute_script _ _).
    + rewrite bool_decide_eq_true_2 by done.
      split_and!; try done. split; [by right|done].
  - rewrite bool_decide_eq_true_2 by done. rewrite orb_true_r.
    split_and!; try done; try (by intros [? ?]).
    split; [by left|done].
Qed.
End RunJsFacts.

(** X17: once the browser has started, [run] ends with a returned text and
    [quit] is its last driver call, made exactly once, whether loading the
    page or running the script raised or not; a page that fails to load
    gets no script run.  If starting the browser itself raises, that
    exception leaves [run] and nothing is quit. *)
Theorem run_js_always_quits
    (get_error : PyVal → option PyVal)
    (execute_script : PyVal → PyVal → PyVal + PyVal)
    (args : gmap string PyVal) :
  (let r := run_js_run None get_error execute_script args in
   (∃ t, r.1 = Returned t) ∧
   (r.2 = [] ∨
    ∃ mid, r.2 = Launch :: (mid ++ [Quit]) ∧ (Quit ∉ mid) ∧ (Launch ∉ mid) ∧
           (is_Some (get_error (py_get args "url")) →
              mid = [Get (py_get args "url")] ∧
              ∃ err, get_error (py_get args "url") = Some err ∧
                     r.1 = Returned [Lit "Error occurred: "; Fmt err]))) ∧
  (∀ err, let r := run_js_run (Some err) get_error execute_script args in
     r = (Raised err, [Launch]) ∨ ∃ t, r = (Returned t, [])).
Proof.
  split; [|intros err]; cbv zeta; unfold run_js_run.
  - destruct (_ || _); [by eauto|].
    destruct (bool_decide _); [by eauto|].
    destruct (get_error (py_get args "url")) as [e|] eqn:Eg.
    + split; [by eauto|]. right. exists [Get (py_get args "url")].
      split_and!; try done.
      * intros H%list_elem_of_singleton. discriminate.
      * intros H%list_elem_of_singleton. discriminate.
      * eauto.
    + destruct (execute_script _ _) as [res|e]; (split; [by eauto|]);
        right;
        exists [Get (py_get args "url");
                ExecuteScript (py_get args "script")];
        (split_and!; [done| | |by intros [? ?]]);
        intros [H|H%list_elem_of_singleton]%elem_of_cons; discriminate.
  - destruct (_ || _); [by eauto|].
    destruct (bool_decide _); by eauto.
Qed.


End Console.

(** ** Instances

    The theorems above hold for every console.  Below they are applied to
    concrete agencies and to [sample_markup_error], the console that
    rejects a text with "[/x]" spliced in. *)

Lemma create_task_ids_witness :
  let inputs : list create_args :=
    [(PStr "book flight", [PStr "window seat"], PBool false);
     (PStr "pack", [PStr "socks"], PBool true)] in
  let r := run_ops sample_markup_error (create_op <$> inputs)
                   (Agency_init false) in
  result_of r = replicate 2 (Returned true) ∧
  id <$> tasks (agency_of r) = task_name <$> seq 1 2 ∧
  (λ t, (description t, requirements t, completed t)) <$> tasks (agency_of r)
    = inputs ∧
  created_ids (effects_of r) = task_name <$> seq 1 2 ∧
  NoDup (id <$> tasks (agency_of r)).
Proof.
  split; [reflexivity|].
  apply (create_task_ids sample_markup_error
           [(PStr "book flight", [PStr "window seat"], PBool false);
            (PStr "pack", [PStr "socks"], PBool true)] false).
  reflexivity.
Defined.

Lemma complete_task_fails_on_known_id_witness :
  let t := mkTask "task_1" (PStr "[/x]") [PStr "r"] (PBool false) (PStr "") in
  let a := mkAgency [t] false in
  let r := complete_task sample_markup_error (PStr "task_1") a in
  silence_actions a = false ∧
  find_task (PStr "task_1") (tasks a) = Some t ∧
  sample_markup_error (completed_notice (description t))
    = Some stray_tag_error ∧
  known (PStr "task_1") (tasks a) ∧
  result_of r ≠ Returned true ∧
  find_task (PStr "task_1") (tasks (agency_of r))
    = Some (set_completed (PBool true) t) ∧
  count_published "task_completed" (effects_of r) = 1 ∧
  (sample_markup_error [Lit "Error completing task: "; Fmt stray_tag_error]
     = None → result_of r = Returned false) ∧
  (∀ e', sample_markup_error
           [Lit "Error completing task: "; Fmt stray_tag_error] = Some e' →
     result_of r = Raised e').
Proof.
  split; [reflexivity|]. split; [reflexivity|]. split; [reflexivity|].
  apply (complete_task_fails_on_known_id sample_markup_error (PStr "task_1")
           (mkAgency [mkTask "task_1" (PStr "[/x]") [PStr "r"] (PBool false)
                             (PStr "")] false)
           (mkTask "task_1" (PStr "[/x]") [PStr "r"] (PBool false) (PStr ""))
           stray_tag_error);
    reflexivity.
Defined.

Lemma complete_task_twice_fails_twice_witness :
  let t := mkTask "task_1" (PStr "[/x]") [PStr "r"] (PBool false) (PStr "") in
  let a := mkAgency [t] false in
  let r1 := complete_task sample_markup_error (PStr "task_1") a in
  let r2 := complete_task sample_markup_error (PStr "task_1")
                          (agency_of r1) in
  silence_actions a = false ∧
  find_task (PStr "task_1") (tasks a) = Some t ∧
  sample_markup_error (completed_notice (description t))
    = Some stray_tag_error ∧
  agency_of r2 = agency_of r1 ∧
  (∃ t', find_task (PStr "task_1") (tasks (agency_of r2)) = Some t' ∧
         completed t' = PBool true) ∧
  count_published "task_completed" (effects_of r1) = 1 ∧
  count_published "task_completed" (effects_of r2) = 1 ∧
  result_of r1 ≠ Returned true ∧
  result_of r2 = result_of r1.
Proof.
  split; [reflexivity|]. split; [reflexivity|]. split; [reflexivity|].
  apply (complete_task_twice_fails_twice sample_markup_error (PStr "task_1")
           (mkAgency [mkTask "task_1" (PStr "[/x]") [PStr "r"] (PBool false)
                             (PStr "")] false)
           (mkTask "task_1" (PStr "[/x]") [PStr "r"] (PBool false) (PStr ""))
           stray_tag_error);
    reflexivity.
Defined.

Lemma unknown_id_returns_false_witness :
  let a := Agency_init false in
  let miss :=
    (Returned false, a,
     [Print (not_found_notice (PStr "task_9")) "bold red"]) in
  ¬ known (PStr "task_9") (tasks a) ∧
  untouched a (complete_task sample_markup_error (PStr "task_9") a) ∧
  (∀ n, untouched a (modify_task_notes sample_markup_error (PStr "task_9")
                                       n a)) ∧
  (∀ r, untouched a (modify_task_requirements sample_markup_error
                       (PStr "task_9") r a)) ∧
  (sample_markup_error (not_found_notice (PStr "task_9")) = None →
   complete_task sample_markup_error (PStr "task_9") a = miss ∧
   (∀ n, modify_task_notes sample_markup_error (PStr "task_9") n a = miss) ∧
   (∀ r, modify_task_requirements sample_markup_error (PStr "task_9") r a
         = miss)).
Proof.
  split; [apply not_known_nil|].
  exact (unknown_id_returns_false sample_markup_error (PStr "task_9")
           (Agency_init false) (not_known_nil _)).
Defined.

(** C3 as stated fails: completing an unknown identifier on a fresh agency
    never ends with false returned and an event on the [error] topic,
    whatever the console does; with the sample console the call returns
    false and has published nothing. *)
Lemma unknown_id_no_error_event :
  let a := Agency_init false in
  ¬ known (PStr "task_9") (tasks a) ∧
  complete_task sample_markup_error (PStr "task_9") a
  = (Returned false, a,
     [Print (not_found_notice (PStr "task_9")) "bold red"]) ∧
  (∀ markup_error,
     let r := complete_task markup_error (PStr "task_9") a in
     ¬ (result_of r = Returned false ∧
        "error" ∈ published_topics (effects_of r))).
Proof.
  split; [apply not_known_nil|]. split; [reflexivity|].
  intros markup_error r [_ H].
  destruct (unknown_id_changes_nothing markup_error (PStr "task_9")
              (Agency_init false) (not_known_nil _)) as (_ & Hp & _).
  subst r. rewrite Hp in H. by apply elem_of_nil in H.
Qed.

Lemma modify_replaces_field_witness :
  let t0 := mkTask "task_1" (PStr "trip") [PStr "book train"] (PBool false)
                   (PStr "") in
  let a := mkAgency [t0] true in
  known (PStr "task_1") (tasks a) ∧
  ∃ t0, find_task (PStr "task_1") (tasks a) = Some t0 ∧
    (∀ R, let r := modify_task_requirements sample_markup_error
                     (PStr "task_1") R a in
       (∃ t, find_task (PStr "task_1") (tasks (agency_of r)) = Some t ∧
             requirements t = R ∧ t = set_requirements R t0) ∧
       (result_of r = Returned true
        ↔ silence_actions a = true
          ∨ sample_markup_error (requirements_notice (description t0))
            = None)) ∧
    (∀ n, let r := modify_task_notes sample_markup_error (PStr "task_1") n a in
       (∃ t, find_task (PStr "task_1") (tasks (agency_of r)) = Some t ∧
             notes t = n ∧ t = set_notes n t0) ∧
       (result_of r = Returned true
        ↔ silence_actions a = true
          ∨ sample_markup_error (notes_notice (description t0)) = None)).
Proof.
  assert (known (PStr "task_1")
            [mkTask "task_1" (PStr "trip") [PStr "book train"] (PBool false)
                    (PStr "")]) as K.
  { eexists. split; [left|]. reflexivity. }
  split; [exact K|].
  exact (modify_replaces_field sample_markup_error (PStr "task_1")
           (mkAgency [mkTask "task_1" (PStr "trip") [PStr "book train"]
                             (PBool false) (PStr "")] true) K).
Defined.

Lemma completed_stays_completed_witness :
  let a := mkAgency [mkTask "task_1" (PStr "pack") [PStr "socks"]
                            (PBool true) (PStr "")] false in
  let t := mkTask "task_1" (PStr "pack") [PStr "socks"]
                  (PBool true) (PStr "") in
  let ops := [ModifyTaskNotes (PStr "task_1") (PStr "done early");
              CreateTask (PStr "[/x]") [PStr "bag"] (PBool false);
              ModifyTaskRequirements (PStr "task_1") [PStr "shoes"];
              CompleteTask (PStr "task_2")] in
  tasks a !! 0 = Some t ∧
  ∃ t', tasks (agency_of (run_ops sample_markup_error ops a)) !! 0
          = Some t' ∧
        id t' = id t ∧
        (truthy (completed t) = true → truthy (completed t') = true) ∧
        (length (tasks a)
         ≤ length (tasks (agency_of (run_ops sample_markup_error ops a))))%nat.
Proof.
  split; [reflexivity|].
  apply (completed_stays_completed sample_markup_error _ _ 0). reflexivity.
Defined.

(** C2 as stated fails for the operation itself: [create_task] with an
    empty requirements list appends the task, and returns true: on a
    silenced agency whatever the console does, and on an unsilenced one
    with the sample console. *)
Lemma create_task_accepts_empty_requirements :
  let a := Agency_init true in
  length (tasks a) = 0 ∧
  (∀ markup_error,
     let r := create_task markup_error (PStr "water plants") []
                          (PBool false) a in
     result_of r = Returned true ∧
     length (tasks (agency_of r)) = 1 ∧
     ¬ (result_of r = Returned false ∧
        tasks (agency_of r) = tasks a ∧
        length (tasks (agency_of r)) = length (tasks a))) ∧
  (let r := create_task sample_markup_error (PStr "water plants") []
                        (PBool false) (Agency_init false) in
   result_of r = Returned true ∧ length (tasks (agency_of r)) = 1).
Proof.
  split; [reflexivity|]. split.
  - intros markup_error r. subst r. split_and!; [reflexivity..|].
    intros (H & _). vm_compute in H. discriminate.
  - split; reflexivity.
Qed.

Lemma create_task_tool_rejects_empty_requirements_witness :
  let args : gmap string PyVal :=
    {[ "description" := PStr "water plants"; "requirements" := PList [] ]} in
  let a := Agency_init false in
  args !! "requirements" = Some (PList []) ∧
  create_task_run sample_markup_error args a
  = (Returned
       (if truthy (py_get args "description")
        then [Lit "Error creating task: No requirements provided."]
        else [Lit "Error creating task: No description provided."]),
     a, []) ∧
  (∀ d c, let r := create_task sample_markup_error d [] c a in
     tasks (agency_of r)
     = tasks a ++ [mkTask (task_name (length (tasks a) + 1)) d [] c
                          (PStr "")] ∧
     length (tasks (agency_of r)) = S (length (tasks a)) ∧
     (silence_actions a = true
      ∨ sample_markup_error (created_notice d) = None →
        result_of r = Returned true)).
Proof.
  split; [reflexivity|].
  apply (create_task_tool_rejects_empty_requirements sample_markup_error
           {[ "description" := PStr "water plants";
              "requirements" := PList [] ]} (Agency_init false)).
  reflexivity.
Defined.

Lemma complete_task_clears_incomplete_witness :
  let a := mkAgency [mkTask "task_1" (PStr "a") [] (PBool false) (PStr "");
                     mkTask "task_2" (PStr "b") [] (PBool false) (PStr "")]
                    true in
  let a' := agency_of (complete_task sample_markup_error (PStr "task_1") a) in
  NoDup (id <$> tasks a) ∧
  get_incomplete_tasks a'
    = filter (λ t, str_eq (id t) (PStr "task_1") = false)
             (get_incomplete_tasks a) ∧
  (∀ t, t ∈ get_incomplete_tasks a' → PStr (id t) ≠ PStr "task_1") ∧
  (known (PStr "task_1") (tasks a) →
     ∃ t, t ∈ get_completed_tasks a' ∧ PStr (id t) = PStr "task_1").
Proof.
  assert (NoDup (id <$> [mkTask "task_1" (PStr "a") [] (PBool false) (PStr "");
                        mkTask "task_2" (PStr "b") [] (PBool false) (PStr "")]))
    as Hnd.
  { apply NoDup_cons. split; [|apply NoDup_singleton].
    intros H%list_elem_of_singleton. discriminate. }
  split; [exact Hnd|].
  exact (complete_task_clears_incomplete sample_markup_error (PStr "task_1")
           (mkAgency [mkTask "task_1" (PStr "a") [] (PBool false) (PStr "");
                      mkTask "task_2" (PStr "b") [] (PBool false) (PStr "")]
                     true) Hnd).
Defined.

Lemma payload_is_stored_task_witness :
  let a := mkAgency [mkTask "task_1" (PStr "[/x]") [] (PBool false) (PStr "")]
                    false in
  let op := ModifyTaskNotes (PStr "task_1") (PStr "half done") in
  let payload := mkTask "task_1" (PStr "[/x]") [] (PBool false)
                        (PStr "half done") in
  let r := run_op sample_markup_error op a in
  Publish "task_notes_modified" payload ∈ effects_of r ∧
  result_of r = Raised stray_tag_error ∧
  "task_notes_modified" = topic_for op ∧
  payload ∈ tasks (agency_of r) ∧
  find_task (PStr "task_1") (tasks (agency_of r)) = Some payload ∧
  notes payload = PStr "half done".
Proof.
  assert (Publish "task_notes_modified"
            (mkTask "task_1" (PStr "[/x]") [] (PBool false) (PStr "half done"))
          ∈ effects_of (run_op sample_markup_error
              (ModifyTaskNotes (PStr "task_1") (PStr "half done"))
              (mkAgency [mkTask "task_1" (PStr "[/x]") [] (PBool false)
                                (PStr "")] false))) as H.
  { vm_compute. left. }
  split; [exact H|]. split; [reflexivity|].
  exact (payload_is_stored_task sample_markup_error _ _ _ _ H).
Defined.

Lemma create_task_tool_creates_witness :
  let args : gmap string PyVal :=
    {[ "description" := PStr "book flight";
       "requirements" := PList [PStr "window seat"];
       "completed" := PInt 0 ]} in
  let a := Agency_init false in
  let c := py_or (py_get args "completed") (PBool false) in
  let new := mkTask (task_name (length (tasks a) + 1)) (PStr "book flight")
                    [PStr "window seat"] c (PStr "") in
  let res := create_task_run sample_markup_error args a in
  args !! "description" = Some (PStr "book flight") ∧
  truthy (PStr "book flight") = true ∧
  args !! "requirements" = Some (PList [PStr "window seat"]) ∧
  tasks (agency_of res) = tasks a ++ [new] ∧
  result_of res
  = Returned [Lit "Task created with id "; Fmt (PStr (id new)); Lit "."] ∧
  (new ∈ get_incomplete_tasks (agency_of res)
   ↔ truthy (py_get args "completed") = false).
Proof.
  split; [reflexivity|]. split; [reflexivity|]. split; [reflexivity|].
  pose proof (create_task_tool_creates sample_markup_error
           {[ "description" := PStr "book flight";
              "requirements" := PList [PStr "window seat"];
              "completed" := PInt 0 ]} (Agency_init false)
           (PStr "book flight") (PStr "window seat") []
           eq_refl eq_refl eq_refl) as (_ & _ & H3 & _ & H5 & _ & H7).
  split; [exact H3|]. split; [|exact H7].
  apply H5. right. reflexivity.
Defined.

Lemma wrappers_reject_bad_requirements_witness :
  let args : gmap string PyVal :=
    {[ "description" := PStr "d"; "task_id" := PStr "task_1";
       "requirements" := PStr "one, two" ]} in
  let a := mkAgency [mkTask "task_1" (PStr "a") [PStr "x"] (PBool false)
                            (PStr "")] false in
  args !! "requirements" = Some (PStr "one, two") ∧
  (∃ msg, create_task_run sample_markup_error args a = (Returned msg, a, []) ∧
     (truthy (py_get args "description") = true →
        msg = if truthy (PStr "one, two")
              then [Lit "Error creating task: Requirements must be a list."]
              else [Lit "Error creating task: No requirements provided."])) ∧
  (∃ msg, modify_task_requirements_run sample_markup_error args a
          = (Returned msg, a, []) ∧
     (py_get args "task_id" ≠ PNone →
        msg = if truthy (PStr "one, two")
              then [Lit "Error modifying task: Requirements must be a list."]
              else [Lit "Error modifying task: No requirements provided."])).
Proof.
  split; [reflexivity|].
  apply (wrappers_reject_bad_requirements sample_markup_error _ _
           (PStr "one, two")); [reflexivity|discriminate].
Defined.

Lemma mutator_tools_report_outcome_witness :
  let args : gmap string PyVal :=
    {[ "task_id" := PStr "task_1"; "notes" := PStr "call back" ]} in
  let a := mkAgency [mkTask "task_1" (PStr "[/x]") [PStr "x"] (PBool false)
                            (PStr "")] false in
  args !! "task_id" = Some (PStr "task_1") ∧
  result_of (complete_task sample_markup_error (PStr "task_1") a)
    = Raised stray_tag_error ∧
  result_of (complete_task_run sample_markup_error args a)
  = match result_of (complete_task sample_markup_error (PStr "task_1") a) with
    | Returned true =>
        Returned [Lit "Task with id "; Fmt (PStr "task_1");
                  Lit " marked as complete."]
    | Returned false =>
        Returned [Lit "Error completing task with id "; Fmt (PStr "task_1");
                  Lit "."]
    | Raised e => Raised e
    end.
Proof.
  split; [reflexivity|]. split; [reflexivity|].
  apply (mutator_tools_report_outcome sample_markup_error
           {[ "task_id" := PStr "task_1"; "notes" := PStr "call back" ]}
           (mkAgency [mkTask "task_1" (PStr "[/x]") [PStr "x"] (PBool false)
                             (PStr "")] false) (PStr "task_1"));
    [reflexivity|discriminate].
Defined.

Lemma modify_task_requirements_tool_reports_outcome_witness :
  let args : gmap string PyVal :=
    {[ "task_id" := PStr "task_1";
       "requirements" := PList [PStr "aisle seat"] ]} in
  let a := mkAgency [mkTask "task_1" (PStr "a") [PStr "x"] (PBool false)
                            (PStr "")] false in
  args !! "task_id" = Some (PStr "task_1") ∧
  args !! "requirements" = Some (PList [PStr "aisle seat"]) ∧
  agency_of (modify_task_requirements_run sample_markup_error args a)
  = agency_of (modify_task_requirements sample_markup_error (PStr "task_1")
                 [PStr "aisle seat"] a).
Proof.
  split; [reflexivity|]. split; [reflexivity|].
  apply (modify_task_requirements_tool_reports_outcome sample_markup_error
           {[ "task_id" := PStr "task_1";
              "requirements" := PList [PStr "aisle seat"] ]}
           (mkAgency [mkTask "task_1" (PStr "a") [PStr "x"] (PBool false)
                             (PStr "")] false)
           (PStr "task_1") (PStr "aisle seat") []);
    [reflexivity|discriminate|reflexivity].
Defined.

(** ** Sample runs *)

Example three_tasks_created :
  id <$> tasks (agency_of (run_ops sample_markup_error
    [CreateTask (PStr "a") [PStr "x"] (PBool false);
     CreateTask (PStr "[/x]") [PStr "y"] (PBool false);
     CompleteTask (PStr "task_1");
     CreateTask (PStr "c") [PStr "z"] (PBool true)] (Agency_init false)))
  = ["task_1"; "task_2"; "task_3"].
Proof. reflexivity. Qed.

Example three_tasks_outcomes :
  result_of (run_ops sample_markup_error
    [CreateTask (PStr "a") [PStr "x"] (PBool false);
     CreateTask (PStr "[/x]") [PStr "y"] (PBool false);
     CompleteTask (PStr "task_1");
     CreateTask (PStr "c") [PStr "z"] (PBool true)] (Agency_init false))
  = [Returned true; Raised stray_tag_error; Returned true; Returned true].
Proof. reflexivity. Qed.

Example incomplete_after_completion :
  id <$> get_incomplete_tasks (agency_of (run_ops sample_markup_error
    [CreateTask (PStr "a") [PStr "x"] (PBool false);
     CreateTask (PStr "b") [PStr "y"] (PBool false);
     CompleteTask (PStr "task_1");
     CreateTask (PStr "c") [PStr "z"] (PBool true)] (Agency_init true)))
  = ["task_2"].
Proof. reflexivity. Qed.

Example create_task_tool_reports_id :
  result_of (create_task_run sample_markup_error
    {[ "description" := PStr "a"; "requirements" := PList [PStr "x"] ]}
    (Agency_init true))
  = Returned [Lit "Task created with id "; Fmt (PStr "task_1"); Lit "."].
Proof. reflexivity. Qed.

Example create_task_rejected_notice :
  create_task sample_markup_error (PStr "[/x]") [PStr "r"] (PBool false)
              (Agency_init false)
  = (Raised stray_tag_error,
     mkAgency [mkTask "task_1" (PStr "[/x]") [PStr "r"] (PBool false)
                      (PStr "")] false,
     []).
Proof. reflexivity. Qed.

Example complete_task_rejected_notice :
  complete_task sample_markup_error (PStr "task_1")
    (mkAgency [mkTask "task_1" (PStr "[/x]") [PStr "r"] (PBool false)
                      (PStr "")] false)
  = (Raised stray_tag_error,
     mkAgency [mkTask "task_1" (PStr "[/x]") [PStr "r"] (PBool true)
                      (PStr "")] false,
     [Publish "task_completed"
        (mkTask "task_1" (PStr "[/x]") [PStr "r"] (PBool true) (PStr ""))]).
Proof. reflexivity. Qed.

Example complete_task_unknown_tag_id :
  complete_task sample_markup_error (PStr "[/x]") (Agency_init true)
  = (Raised stray_tag_error, Agency_init true, []).
Proof. reflexivity. Qed.

Example complete_task_tool_non_string_id :
  complete_task_run sample_markup_error {[ "task_id" := PInt 1 ]}
    (mkAgency [mkTask "task_1" (PStr "a") [] (PBool false) (PStr "")] true)
  = (Returned [Lit "Error completing task with id "; Fmt (PInt 1); Lit "."],
     mkAgency [mkTask "task_1" (PStr "a") [] (PBool false) (PStr "")] true,
     [Print [Lit "Task "; Fmt (PInt 1); Lit " not found."] "bold red"]).
Proof. reflexivity. Qed.
